(** * reflect-shape: metadata lookup

    A shallow embedding of [metadata/lookup.go] and of [Config.Extract]
    ([api.go]) of github.com/podhmo/reflect-shape, and the properties of the
    lookup facades that the design document states.

    Go strings are byte sequences: they are modelled as [string] (a list of
    [ascii], one per byte).  The Go runtime, go/parser, go/packages and the
    commentof indexer are outside this repository: they appear as the
    oracles of a [World], and every call to one of them is recorded as an
    [Event] in the trace the lookups return. *)

From Stdlib Require Import Ascii ZArith Lia.
From stdpp Require Import base option list strings gmap fin_maps.

Local Open Scope Z_scope.

(** ** The parts of Go's [strings] package the lookups call *)

Module strings.

(** [s == t] on Go strings. *)
Definition eqb (s t : string) : bool := String.eqb s t.

Fixpoint rev_onto (s acc : string) : string :=
  match s with
  | EmptyString => acc
  | String c s' => rev_onto s' (String c acc)
  end.

Definition rev (s : string) : string := rev_onto s EmptyString.

(** The non-empty slice that [Split] builds, as its head and tail. *)
Fixpoint splitSegments (s : string) (sep : ascii) : string * list string :=
  match s with
  | EmptyString => (EmptyString, [])
  | String c s' =>
      let '(seg, segs) := splitSegments s' sep in
      if Ascii.eqb c sep then (EmptyString, seg :: segs)
      else (String c seg, segs)
  end.

(** [strings.Split(s, sep)] for a one-byte separator. *)
Definition Split (s : string) (sep : ascii) : list string :=
  let '(seg, segs) := splitSegments s sep in seg :: segs.

(** [strings.IndexByte(s, c) >= 0]: the byte [c] occurs in [s]. *)
Fixpoint hasByte (s : string) (c : ascii) : bool :=
match s with
| EmptyString => false
| String d s' => Ascii.eqb d c || hasByte s' c
end.

(** [strings.Cut(s, sep)] for a one-byte separator: the text before and
    after the first [sep], and whether [sep] occurs; [(s, "", false)] when
    it does not. *)
Fixpoint Cut (s : string) (sep : ascii) : string * string * bool :=
  match s with
  | EmptyString => (EmptyString, EmptyString, false)
  | String c s' =>
      if Ascii.eqb c sep then (EmptyString, s', true)
      else let '(before, after, found) := Cut s' sep in
           (String c before, after, found)
  end.

Fixpoint inCutset (cutset : string) (c : ascii) : bool :=
  match cutset with
  | EmptyString => false
  | String d cutset' => Ascii.eqb c d || inCutset cutset' c
  end.

Fixpoint trimLeftBytes (f : ascii -> bool) (s : string) : string :=
  match s with
  | EmptyString => EmptyString
  | String c s' => if f c then trimLeftBytes f s' else s
  end.

Definition trimRightBytes (f : ascii -> bool) (s : string) : string :=
  rev (trimLeftBytes f (rev s)).

(** [strings.Trim(s, cutset)] for an ASCII cutset: Go takes the byte-wise
    path ([trimLeftASCII (trimRightASCII s)]) for such a cutset. *)
Definition Trim (s cutset : string) : string :=
  trimLeftBytes (inCutset cutset) (trimRightBytes (inCutset cutset) s).

Definition byte (c : ascii) : N := N_of_ascii c.

(** Go's [asciiSpace] table: tab, newline, vertical tab, form feed,
    carriage return and space. *)
Definition asciiSpace (c : ascii) : bool :=
  let n := byte c in
  ((9 <=? n) && (n <=? 13) || (n =? 32))%N.

(** The two-byte UTF-8 encodings of white space: U+0085 and U+00A0. *)
Definition space2 (a b : ascii) : bool :=
  ((byte a =? 194) && ((byte b =? 133) || (byte b =? 160)))%N.

(** The three-byte UTF-8 encodings of white space: U+1680, U+2000 to
    U+200A, U+2028, U+2029, U+202F, U+205F and U+3000. *)
Definition space3 (a b c : ascii) : bool :=
  let '(x, y, z) := (byte a, byte b, byte c) in
  ((x =? 225) && (y =? 154) && (z =? 128)
   || (x =? 226) && (y =? 128)
      && ((128 <=? z) && (z <=? 138) || (z =? 168) || (z =? 169) || (z =? 175))
   || (x =? 226) && (y =? 129) && (z =? 159)
   || (x =? 227) && (y =? 128) && (z =? 128))%N.

(** Drops the leading white-space runes ([unicode.IsSpace]) of [s]. *)
Fixpoint trimLeftSpace (s : string) : string :=
  match s with
  | EmptyString => EmptyString
  | String a r1 =>
      if asciiSpace a then trimLeftSpace r1
      else match r1 with
           | EmptyString => s
           | String b r2 =>
               if space2 a b then trimLeftSpace r2
               else match r2 with
                    | EmptyString => s
                    | String c r3 =>
                        if space3 a b c then trimLeftSpace r3 else s
                    end
           end
  end.

(** The same on the reversed string: the bytes of a rune come last byte
    first. *)
Fixpoint trimLeftSpaceRev (s : string) : string :=
  match s with
  | EmptyString => EmptyString
  | String a r1 =>
      if asciiSpace a then trimLeftSpaceRev r1
      else match r1 with
           | EmptyString => s
           | String b r2 =>
               if space2 b a then trimLeftSpaceRev r2
               else match r2 with
                    | EmptyString => s
                    | String c r3 =>
                        if space3 c b a then trimLeftSpaceRev r3 else s
                    end
           end
  end.

(** [strings.TrimSpace(s)]: leading white space is dropped first, then
    trailing white space of what is left. *)
Definition TrimSpace (s : string) : string :=
  rev (trimLeftSpaceRev (rev (trimLeftSpace s))).

End strings.

(** ** Go error values *)

(** The error values the lookups build or pass on.  [ErrNotFound] is the
    package-level sentinel [var ErrNotFound = fmt.Errorf("not found")]: a
    pointer, equal only to itself.  [errorString] is what [fmt.Errorf] makes
    of a format without [%w], [wrapError] what it makes of one with [%w],
    and [foreignError] an error value made by go/parser, go/packages or
    commentof. *)
Inductive error : Type :=
| ErrNotFound
| errorString (msg : string)
| wrapError (msg : string) (err : error)
| foreignError (msg : string).

Module errors.

(** The [Error()] method. *)
Definition Error (e : error) : string :=
  match e with
  | ErrNotFound => "not found"
  | errorString msg => msg
  | wrapError msg _ => msg
  | foreignError msg => msg
  end.

(** [errors.Is(e, ErrNotFound)]: [e] is the sentinel or wraps it. *)
Fixpoint IsNotFound (e : error) : bool :=
  match e with
  | ErrNotFound => true
  | wrapError _ err => IsNotFound err
  | errorString _ | foreignError _ => false
  end.

End errors.

(** A Go result pair [(v, err)] with exactly one side set. *)
Inductive result (A : Type) : Type :=
| Ok (a : A)
| Err (e : error).
Arguments Ok {A} a.
Arguments Err {A} e.

(** ** Declaration records of the commentof indexer (package [collect]) *)

Module collect.

Module Field.
Record t : Type := Build { Name : string; Doc : string; Comment : string }.
End Field.

Module Func.
(** [ParamNames] and [ReturnNames] list the ids of the parameters and
    results in order; [Params] and [Returns] map an id to its record. *)
Record t : Type := Build {
  Name : string;
  Doc : string;
  Params : gmap string Field.t;
  ParamNames : list string;
  Returns : gmap string Field.t;
  ReturnNames : list string
}.
End Func.

Module Object.
(** [Fields] is given in the order in which a [range] over it visits
    the field records. *)
Record t : Type := Build {
  Name : string;
  Doc : string;
  Comment : string;
  Fields : list Field.t;
  Methods : gmap string Func.t
}.
End Object.

Module Package.
Record t : Type := Build {
  Types : gmap string Object.t;
  Functions : gmap string Func.t
}.
End Package.

End collect.

(** ** Package [metadata]: the records and their accessors *)

Module FileSet.
(** [token.FileSet], the shared file-position registry: the names of the
    files registered so far. *)
Record t : Type := Build { files : list string }.
End FileSet.

Definition NewFileSet : FileSet.t := FileSet.Build [].

Module Accessor.
(** [unsaferuntime.Accessor]: it holds no data of its own, its
    [FuncForPC] is an oracle of the [World]. *)
Inductive t : Type := New.
End Accessor.

Module Lookup.
Record t : Type := Build {
  Fset : FileSet.t;
  accessor : Accessor.t;
  IncludeGoTestFiles : bool;
  IncludeUnexported : bool
}.
End Lookup.

Definition NewLookup (fset : FileSet.t) : Lookup.t :=
  {| Lookup.Fset := fset;
     Lookup.accessor := Accessor.New;
     Lookup.IncludeGoTestFiles := false;
     Lookup.IncludeUnexported := false |}.

Module Func.
Record t : Type := Build { pc : Z; Raw : collect.Func.t; Recv : string }.
End Func.

Module Struct.
Record t : Type := Build { Raw : collect.Object.t }.
End Struct.

(** The loop [for i, id := range ids { names[i] = fields[id].Name }].  The
    map holds pointers: an id without an entry yields nil, and reading
    [.Name] through it panics, which is [None] here. *)
Fixpoint fillNames (fields : gmap string collect.Field.t) (ids : list string)
    (i : nat) (names : list string) : option (list string) :=
  match ids with
  | [] => Some names
  | id :: ids' =>
      match fields !! id with
      | None => None
      | Some f => fillNames fields ids' (S i) (<[i := collect.Field.Name f]> names)
      end
  end.

(** [names := make([]string, len(ids))] followed by the loop. *)
Definition fieldNames (fields : gmap string collect.Field.t) (ids : list string)
  : option (list string) :=
  fillNames fields ids 0 (replicate (length ids) "").

Definition Func_Name (m : Func.t) : string := collect.Func.Name (Func.Raw m).

Definition Func_Doc (m : Func.t) : string :=
  strings.TrimSpace (collect.Func.Doc (Func.Raw m)).

Definition Func_Args (m : Func.t) : option (list string) :=
  fieldNames (collect.Func.Params (Func.Raw m)) (collect.Func.ParamNames (Func.Raw m)).

Definition Func_Returns (m : Func.t) : option (list string) :=
  fieldNames (collect.Func.Returns (Func.Raw m)) (collect.Func.ReturnNames (Func.Raw m)).

Definition Struct_Name (s : Struct.t) : string := collect.Object.Name (Struct.Raw s).

(** [doc := x.Doc; if doc == "" { doc = x.Comment }; strings.TrimSpace(doc)],
    the text both [Struct.Doc] and [Struct.FieldComments] compute. *)
Definition docOrComment (doc comment : string) : string :=
  let doc := if strings.eqb doc "" then comment else doc in
  strings.TrimSpace doc.

Definition Struct_Doc (s : Struct.t) : string :=
  docOrComment (collect.Object.Doc (Struct.Raw s)) (collect.Object.Comment (Struct.Raw s)).

(** The loop of [FieldComments]: one map store per field visited. *)
Definition Struct_FieldComments (s : Struct.t) : gmap string string :=
  foldl (fun comments f =>
           <[collect.Field.Name f :=
               docOrComment (collect.Field.Doc f) (collect.Field.Comment f)]> comments)
        ∅ (collect.Object.Fields (Struct.Raw s)).

(** ** The world outside the repository *)

Module RFunc.
(** [*runtime.Func]: the symbol-table entry of a function. *)
Record t : Type := Build {
  Name : string;
  Entry : Z;
  FileLine : Z -> string * Z
}.
End RFunc.

Module BuildInfo.
(** [debug.BuildInfo]; [Path] is the import path of the main package. *)
Record t : Type := Build { Path : string }.
End BuildInfo.

Module ReflectType.
(** What the struct lookup reads of a [reflect.Type]: [Name()],
    [PkgPath()] and its [%v] rendering. *)
Record t : Type := Build { Name : string; PkgPath : string; String : string }.
End ReflectType.

Inductive LoadMode : Type := NeedName | NeedFiles | NeedSyntax.

Module PackagesConfig.
(** [packages.Config] as the struct lookup fills it; its [Fset] is the
    lookup's and its [ParseFile] calls go/parser with comments kept. *)
Record t : Type := Build { Mode : list LoadMode; Tests : bool }.
End PackagesConfig.

Section World.

(** A parsed source file, [*ast.File]; its contents are only ever handed
    to the indexer. *)
Context {AstFile : Type}.

(** The three outcomes of [parser.ParseFile]: a tree, a partial tree
    together with the syntax errors, or no tree (nil) and an error. *)
Inductive ParseResult : Type :=
| Parsed (f : AstFile)
| ParsedPartial (f : AstFile) (err : error)
| ParseFailed (err : error).

(** [packages.Package]. *)
Record Package : Type := {
  pkgID : string;
  pkgName : string;
  pkgPkgPath : string;
  pkgErrors : list error;
  pkgSyntax : list AstFile
}.

(** [ast.Package]. *)
Record AstPackage : Type := {
  astName : string;
  astFiles : gmap string AstFile
}.

Record World : Type := {
  (** [accessor.FuncForPC(pc)]; [None] is nil. *)
  FuncForPC : Z -> option RFunc.t;
  (** [parser.ParseFile(fset, filename, nil, parser.ParseComments)]. *)
  ParseFile : string -> ParseResult;
  (** [commentof.File(fset, f, WithIncludeUnexported(b))]. *)
  commentofFile : bool -> AstFile -> result collect.Package.t;
  (** [debug.ReadBuildInfo()]; [None] is [ok == false]. *)
  ReadBuildInfo : option BuildInfo.t;
  (** [packages.Load(cfg, pkgpath)]. *)
  packagesLoad : PackagesConfig.t -> string -> result (list Package);
  (** [fset.File(f.Pos()).Name()]. *)
  fileName : AstFile -> string;
  (** [commentof.Package(fset, tree, WithIncludeUnexported(b))]. *)
  commentofPackage : bool -> AstPackage -> result collect.Package.t
}.

(** One event per call that leaves the repository. *)
Inductive Event : Type :=
| EvFuncForPC (pc : Z)
| EvParseFile (filename : string)
| EvCommentofFile (includeUnexported : bool) (f : AstFile)
| EvReadBuildInfo
| EvLog (msg : string)
| EvPackagesLoad (cfg : PackagesConfig.t) (pkgpath : string)
| EvCommentofPackage (includeUnexported : bool) (tree : AstPackage).

(** A computation: the calls made, in order, and the result pair. *)
Definition M (A : Type) : Type := list Event * result A.

Definition ret {A} (a : A) : M A := ([], Ok a).
Definition fail {A} (e : error) : M A := ([], Err e).
Definition emit (ev : Event) : M unit := ([ev], Ok tt).

Definition bind {A B} (m : M A) (k : A -> M B) : M B :=
  match m with
  | (t, Ok a) => let '(t', r) := k a in (t ++ t', r)
  | (t, Err e) => (t, Err e)
  end.

End World.

Arguments ParseResult : clear implicits.
Arguments Package : clear implicits.
Arguments AstPackage : clear implicits.
Arguments World : clear implicits.
Arguments Event : clear implicits.
Arguments M : clear implicits.

Notation "x <- m ;; k" := (bind m (fun x => k))
  (at level 100, m at next level, right associativity).
Notation "m ;;; k" := (bind m (fun _ => k))
  (at level 100, right associativity).

(** ** The function lookup *)

Section Lookups.

Context {AstFile : Type}.

Abbreviation World := (World AstFile).
Abbreviation M := (M AstFile).

(** A result pair of an oracle, continued with on [Ok]. *)
Definition lift {A} (r : result A) : M A := ([], r).

(** The cutset of [strings.Trim(recv, ...)]: an opening parenthesis, a star
    and a closing parenthesis. *)
Definition receiverMarkers : string :=
String "(" (String "*" (String ")" EmptyString)).

(** The demangling of [LookupFromFuncForPC]: from the runtime name
    [<dir>/<pkg>.<function>] or [<dir>/<pkg>.<recv>.<method>] to
    [(recv, name, isMethod)].  [parts[len(parts)-1]] is the last element of
    a slice that [Split] never leaves empty, so the default is never
    taken. *)
Definition splitSymbol (fullname : string) : result (string * string * bool) :=
  let parts := strings.Split fullname "/" in
  let last := default "" (last parts) in
  let '(pkgname, name, isFunc) := strings.Cut last "." in
  if negb isFunc then Err (errorString ("unexpected func: " +:+ fullname))
  else
    let '(recv, name', isMethod) := strings.Cut name "." in
    if isMethod then Ok (strings.Trim recv receiverMarkers, name', true)
    else Ok ("", recv, false).

Definition methodNotFound (fullname : string) : error :=
  wrapError ("lookup metadata of method " +:+ fullname +:+ ", "
             +:+ errors.Error ErrNotFound) ErrNotFound.

Definition functionNotFound (fullname : string) : error :=
  wrapError ("lookup metadata of function " +:+ fullname +:+ ", "
             +:+ errors.Error ErrNotFound) ErrNotFound.

(** The selection of the record in the index [p] of the owning file. *)
Definition selectFunc (p : collect.Package.t) (pc : Z) (fullname : string)
    (recv name : string) (isMethod : bool) : result Func.t :=
  if isMethod then
    match collect.Package.Types p !! recv with
    | None => Err (methodNotFound fullname)
    | Some ob =>
        match collect.Object.Methods ob !! name with
        | None => Err (methodNotFound fullname)
        | Some result => Ok {| Func.pc := pc; Func.Raw := result; Func.Recv := recv |}
        end
    end
  else
    match collect.Package.Functions p !! name with
    | None => Err (functionNotFound fullname)
    | Some result => Ok {| Func.pc := pc; Func.Raw := result; Func.Recv := "" |}
    end.

Definition LookupFromFuncForPC (w : World) (l : Lookup.t) (pc : Z) : M Func.t :=
  emit (EvFuncForPC pc) ;;;
  match FuncForPC w pc with
  | None => fail (errorString "cannot find runtime.Func")
  | Some rfunc =>
      let '(filename, _) := RFunc.FileLine rfunc (RFunc.Entry rfunc) in
      emit (EvParseFile filename) ;;;
      f <- match ParseFile w filename with
           | Parsed f => ret f
           | ParsedPartial f _ => ret f
           | ParseFailed err => fail err
           end ;;
      emit (EvCommentofFile (Lookup.IncludeUnexported l) f) ;;;
      p <- lift (commentofFile w (Lookup.IncludeUnexported l) f) ;;
      sym <- lift (splitSymbol (RFunc.Name rfunc)) ;;
      let '(recv, name, isMethod) := sym in
      lift (selectFunc p pc (RFunc.Name rfunc) recv name isMethod)
  end.

(** ** The struct lookup *)

(** The declaring package path: the reflected one, or for the sentinel
    ["main"] the path of the build information. *)
Definition resolvePkgPath (w : World) (rt : ReflectType.t) : M string :=
  if strings.eqb (ReflectType.PkgPath rt) "main" then
    emit EvReadBuildInfo ;;;
    match ReadBuildInfo w with
    | None => emit (EvLog "debug.ReadBuildInfo() is failed") ;;; fail ErrNotFound
    | Some binfo => ret (BuildInfo.Path binfo)
    end
  else ret (ReflectType.PkgPath rt).

Definition loadConfig (l : Lookup.t) : PackagesConfig.t :=
  {| PackagesConfig.Mode := [NeedName; NeedFiles; NeedSyntax];
     PackagesConfig.Tests := Lookup.IncludeGoTestFiles l |}.

(** [tree := &ast.Package{Name: pkg.Name, Files: ...}] with one store per
    syntax tree of the package. *)
Definition packageTree (w : World) (pkg : Package AstFile) : AstPackage AstFile :=
  {| astName := pkgName pkg;
     astFiles := foldl (fun files f => <[fileName w f := f]> files) ∅ (pkgSyntax pkg) |}.

Definition logPackageErrors (pkg : Package AstFile) : M unit :=
  (map (fun err => EvLog ("lookup package error (" +:+ pkgID pkg +:+ ") "
                          +:+ errors.Error err)) (pkgErrors pkg), Ok tt).

Definition structNotFound (rt : ReflectType.t) : error :=
  wrapError ("lookup metadata of " +:+ ReflectType.String rt +:+ " is failed "
             +:+ errors.Error ErrNotFound) ErrNotFound.

(** The loop over the loaded packages. *)
Fixpoint scanPackages (w : World) (l : Lookup.t) (rt : ReflectType.t) (pkgpath : string)
    (pkgs : list (Package AstFile)) : M Struct.t :=
  match pkgs with
  | [] => fail (structNotFound rt)
  | pkg :: pkgs' =>
      if (0 <? length (pkgErrors pkg))%nat then
        logPackageErrors pkg ;;; scanPackages w l rt pkgpath pkgs'
      else if negb (strings.eqb (pkgPkgPath pkg) pkgpath) then
        scanPackages w l rt pkgpath pkgs'
      else
        let tree := packageTree w pkg in
        emit (EvCommentofPackage (Lookup.IncludeUnexported l) tree) ;;;
        match commentofPackage w (Lookup.IncludeUnexported l) tree with
        | Err err =>
            fail (wrapError ("collect: dir=" +:+ pkgPkgPath pkg +:+ ", name="
                             +:+ ReflectType.Name rt +:+ ", " +:+ errors.Error err) err)
        | Ok p =>
            match collect.Package.Types p !! ReflectType.Name rt with
            | None => scanPackages w l rt pkgpath pkgs'
            | Some result => ret {| Struct.Raw := result |}
            end
        end
  end.

Definition LookupFromStructForReflectType (w : World) (l : Lookup.t) (rt : ReflectType.t)
  : M Struct.t :=
  pkgpath <- resolvePkgPath w rt ;;
  emit (EvPackagesLoad (loadConfig l) pkgpath) ;;;
  match packagesLoad w (loadConfig l) pkgpath with
  | Err err => fail (wrapError ("packages.Load() " +:+ errors.Error err) err)
  | Ok pkgs => scanPackages w l rt pkgpath pkgs
  end.

End Lookups.

(** ** [Config.Extract] *)

(** The initial value of the package variable [DocTruncationSize].  The
    variable is exported and can be reassigned: [Extract] is modelled on the
    value the variable holds when it runs. *)
Definition DocTruncationSize : Z := 10.

Section Extract.

(** The shape-tree builder is outside [api.go]: its types are left
    abstract and its [Extract] method runs after [Config.Extract] has set
    the configuration up. *)
Context {ID : Type} `{Countable ID} {Shape ShapePackage Ob : Type}.

(** [Extractor], without the pointer back to its [Config]. *)
Record Extractor : Type := {
  exLookup : option Lookup.t;
  exSeen : gmap ID Shape;
  exPackages : gmap string ShapePackage
}.

Record Config : Type := {
  cfgSkipComments : bool;
  cfgFillArgNames : bool;
  cfgFillReturnNames : bool;
  cfgIncludeGoTestFiles : bool;
  cfgDocTruncationSize : Z;
  cfgExtractor : option Extractor;
  cfgLookup : option Lookup.t
}.

Definition setDocTruncationSize (c : Config) (n : Z) : Config :=
  {| cfgSkipComments := cfgSkipComments c; cfgFillArgNames := cfgFillArgNames c;
     cfgFillReturnNames := cfgFillReturnNames c;
     cfgIncludeGoTestFiles := cfgIncludeGoTestFiles c;
     cfgDocTruncationSize := n;
     cfgExtractor := cfgExtractor c; cfgLookup := cfgLookup c |}.

Definition setLookup (c : Config) (l : Lookup.t) : Config :=
  {| cfgSkipComments := cfgSkipComments c; cfgFillArgNames := cfgFillArgNames c;
     cfgFillReturnNames := cfgFillReturnNames c;
     cfgIncludeGoTestFiles := cfgIncludeGoTestFiles c;
     cfgDocTruncationSize := cfgDocTruncationSize c;
     cfgExtractor := cfgExtractor c; cfgLookup := Some l |}.

Definition setExtractor (c : Config) (e : Extractor) : Config :=
  {| cfgSkipComments := cfgSkipComments c; cfgFillArgNames := cfgFillArgNames c;
     cfgFillReturnNames := cfgFillReturnNames c;
     cfgIncludeGoTestFiles := cfgIncludeGoTestFiles c;
     cfgDocTruncationSize := cfgDocTruncationSize c;
     cfgExtractor := Some e; cfgLookup := cfgLookup c |}.

(** The lookup that [Extract] constructs: [NewLookup] followed by the two
    field stores. *)
Definition extractLookup (c : Config) : Lookup.t :=
  let l := NewLookup NewFileSet in
  let l := {| Lookup.Fset := Lookup.Fset l; Lookup.accessor := Lookup.accessor l;
              Lookup.IncludeGoTestFiles := cfgIncludeGoTestFiles c;
              Lookup.IncludeUnexported := Lookup.IncludeUnexported l |} in
  {| Lookup.Fset := Lookup.Fset l; Lookup.accessor := Lookup.accessor l;
     Lookup.IncludeGoTestFiles := Lookup.IncludeGoTestFiles l;
     Lookup.IncludeUnexported := true |}.

(** The three guarded stores of [Extract], up to the call of the
    extractor; [docTruncationSize] is the value of the package variable
    [DocTruncationSize] at the call. *)
Definition Config_setup (docTruncationSize : Z) (c : Config) : Config :=
  let c := if cfgDocTruncationSize c =? 0
           then setDocTruncationSize c docTruncationSize else c in
  let c := match cfgLookup c with
           | None => if negb (cfgSkipComments c) then setLookup c (extractLookup c) else c
           | Some _ => c
           end in
  match cfgExtractor c with
  | None => setExtractor c {| exLookup := cfgLookup c; exSeen := ∅; exPackages := ∅ |}
  | Some _ => c
  end.

(** [c.extractor.Extract(ob)], on the configuration it is reached with. *)
Context (Extractor_Extract : Config -> Ob -> Config * Shape).

Definition Config_Extract (docTruncationSize : Z) (c : Config) (ob : Ob)
  : Config * Shape :=
  Extractor_Extract (Config_setup docTruncationSize c) ob.

End Extract.

(** ** Runtime symbols *)

(** The runtime name [d1/d2/.../seg] of the directories [dirs] and the
    final segment [seg]. *)
Definition joinPath (dirs : list string) (seg : string) : string :=
foldr (fun d rest => d +:+ String "/" rest) seg dirs.

(** The final segment of a function symbol and of a method symbol. *)
Definition funcSegment (pkg name : string) : string :=
pkg +:+ String "." name.

Definition methodSegment (pkg recv name : string) : string :=
pkg +:+ String "." (recv +:+ String "." name).

(** The receiver part of a pointer-receiver method: [T] between an opening
    parenthesis with a star and a closing parenthesis. *)
Definition pointerRecv (T : string) : string :=
String "(" (String "*" (T +:+ ")")).

(** ** Declarations and their records *)

Module FuncDecl.
(** A function declaration as written in the source: the names of its
    declared parameters and of its declared results, one entry per
    position in declaration order, the empty string where a position has
    no name. *)
Record t : Type := Build { params : list string; results : list string }.
End FuncDecl.

(** The ids [ids] of a record list the declared positions [names] in order:
    each id has an entry, and the entry holds the declared name. *)
Definition listsPositions (fields : gmap string collect.Field.t)
    (ids names : list string) : Prop :=
Forall2 (fun id name => ∃ f, fields !! id = Some f ∧ collect.Field.Name f = name)
        ids names.

(** The indexer's record [raw] is the record of the declaration [d]. *)
Definition recordOfDecl (raw : collect.Func.t) (d : FuncDecl.t) : Prop :=
listsPositions (collect.Func.Params raw) (collect.Func.ParamNames raw) (FuncDecl.params d)
∧ listsPositions (collect.Func.Returns raw) (collect.Func.ReturnNames raw) (FuncDecl.results d).

(** The comment selection in the words of the design document: the doc
    comment when one is present, else the trailing comment when one exists,
    else the empty string; a comment is returned trimmed. *)
Definition selectComment (doc trailing : string) : string :=
if bool_decide (doc ≠ "") then strings.TrimSpace doc
else if bool_decide (trailing ≠ "") then strings.TrimSpace trailing
else "".

Definition fieldComment (f : collect.Field.t) : string :=
selectComment (collect.Field.Doc f) (collect.Field.Comment f).

(** The fields of [raw] named [k], in the order they are visited. *)
Definition fieldsNamed (raw : collect.Object.t) (k : string) : list collect.Field.t :=
filter (fun f => collect.Field.Name f = k) (collect.Object.Fields raw).

(** *** Sample records *)

(** The record of [func Add(ctx context.Context, a, b int, string) (sum int, error)],
    with an unnamed last parameter and an unnamed last result. *)
Definition addDecl : FuncDecl.t :=
{| FuncDecl.params := ["ctx"; "a"; "b"; ""]; FuncDecl.results := ["sum"; ""] |}.

Definition mkField (name : string) : collect.Field.t :=
{| collect.Field.Name := name; collect.Field.Doc := ""; collect.Field.Comment := "" |}.

Definition addRecord : collect.Func.t :=
{| collect.Func.Name := "Add";
   collect.Func.Doc := "Add adds.";
   collect.Func.Params :=
     <["ctx" := mkField "ctx"]> (<["a" := mkField "a"]> (<["b" := mkField "b"]>
       (<["#3" := mkField ""]> ∅)));
   collect.Func.ParamNames := ["ctx"; "a"; "b"; "#3"];
   collect.Func.Returns := <["sum" := mkField "sum"]> (<["#1" := mkField ""]> ∅);
   collect.Func.ReturnNames := ["sum"; "#1"] |}.

Definition addFunc : Func.t :=
{| Func.pc := 4198400; Func.Raw := addRecord; Func.Recv := "" |}.

(** The struct of the package example:
    a doc comment on the type and on [Name], a trailing comment on [Age]. *)
Definition userRecord : collect.Object.t :=
{| collect.Object.Name := "User";
   collect.Object.Doc := "User is the object for User.
";
   collect.Object.Comment := "";
   collect.Object.Fields :=
     [ {| collect.Field.Name := "Name"; collect.Field.Doc := "name of User.
";
          collect.Field.Comment := "" |};
       {| collect.Field.Name := "Age"; collect.Field.Doc := "";
          collect.Field.Comment := "age of User.
" |} ];
   collect.Object.Methods := ∅ |}.

Definition userStruct : Struct.t := {| Struct.Raw := userRecord |}.

(** No path separator in the segment [s], and none in the segments [dirs]. *)
Definition noSlash (s : string) : Prop := strings.hasByte s "/" = false.

Definition noDot (s : string) : Prop := strings.hasByte s "." = false.

(** ** Reading a lookup *)

(** The tree [parser.ParseFile] returned, [None] for nil. *)
Definition parseTree {AstFile : Type} (r : ParseResult AstFile) : option AstFile :=
match r with
| Parsed f | ParsedPartial f _ => Some f
| ParseFailed _ => None
end.

(** The file that owns a function: [rfunc.FileLine(rfunc.Entry())]. *)
Definition sourceFile (rfunc : RFunc.t) : string :=
(RFunc.FileLine rfunc (RFunc.Entry rfunc)).1.

(** The world [w] with another parser. *)
Definition withParseFile {AstFile : Type} (w : World AstFile)
    (parse : string → ParseResult AstFile) : World AstFile :=
{| FuncForPC := FuncForPC w;
   ParseFile := parse;
   commentofFile := commentofFile w;
   ReadBuildInfo := ReadBuildInfo w;
   packagesLoad := packagesLoad w;
   fileName := fileName w;
   commentofPackage := commentofPackage w |}.

(** The declaration record and receiver a function lookup selected. *)
Definition selected (r : result Func.t) : option (collect.Func.t * string) :=
match r with
| Ok m => Some (Func.Raw m, Func.Recv m)
| Err _ => None
end.

Definition isParseEvent {AstFile : Type} (ev : Event AstFile) : bool :=
match ev with
| EvParseFile _ => true
| _ => false
end.

(** The error of the function lookup for an address without symbol-table
    entry, and the one for a symbol that does not split. *)
Definition errNotResolvable : error := errorString "cannot find runtime.Func".

Definition errUnexpectedSymbolForm (fullname : string) : error :=
errorString ("unexpected func: " +:+ fullname).

(** *** A sample program *)

Definition sampleDirs : list string := ["github.com"; "podhmo"; "reflect-shape"].

Definition sampleSource : string := "/go/src/github.com/podhmo/reflect-shape/metadata/sample.go".

Definition sampleRFunc (name : string) (entry : Z) (file : string) : RFunc.t :=
{| RFunc.Name := name; RFunc.Entry := entry; RFunc.FileLine := fun _ => (file, 10) |}.

Definition describeRecord : collect.Func.t :=
{| collect.Func.Name := "Describe";
   collect.Func.Doc := "Describe describes.";
   collect.Func.Params := ∅;
   collect.Func.ParamNames := [];
   collect.Func.Returns := <["#0" := mkField ""]> ∅;
   collect.Func.ReturnNames := ["#0"] |}.

Definition shapeRecord : collect.Object.t :=
{| collect.Object.Name := "S";
   collect.Object.Doc := "S is a shape.";
   collect.Object.Comment := "";
   collect.Object.Fields := [];
   collect.Object.Methods := <["Describe" := describeRecord]> ∅ |}.

Definition sampleIndex : collect.Package.t :=
{| collect.Package.Types := <["S" := shapeRecord]> (<["User" := userRecord]> ∅);
   collect.Package.Functions := <["Add" := addRecord]> ∅ |}.

(** Entry addresses of the sample program: the function [Add], the method
    [Describe] through its pointer-receiver and its value-receiver symbol,
    the method value [s.Describe], a start-up routine whose symbol has no
    package part and whose source is not on this machine, and an export
    wrapper whose symbol has no package part either. *)
Definition pcAdd : Z := 4198400.
Definition pcDescribePtr : Z := 4198656.
Definition pcDescribeVal : Z := 4198912.
Definition pcDescribeFm : Z := 4199168.
Definition pcStart : Z := 4194304.
Definition pcExport : Z := 4199424.

Definition symAdd : string := joinPath sampleDirs (funcSegment "metadata" "Add").
Definition symDescribePtr : string :=
joinPath sampleDirs (methodSegment "metadata" (pointerRecv "S") "Describe").
Definition symDescribeVal : string :=
joinPath sampleDirs (methodSegment "metadata" "S" "Describe").
Definition symDescribeFm : string :=
joinPath sampleDirs (methodSegment "metadata" "S" "Describe-fm").
Definition symStart : string := "_rt0_amd64_linux".
Definition symExport : string := "_cgoexp_0a1b2c3d_Describe".

Definition exportSource : string :=
"/go/src/github.com/podhmo/reflect-shape/metadata/_cgo_gotypes.go".

Definition sampleFuncForPC (pc : Z) : option RFunc.t :=
if pc =? pcAdd then Some (sampleRFunc symAdd pcAdd sampleSource)
else if pc =? pcDescribePtr then Some (sampleRFunc symDescribePtr pcDescribePtr sampleSource)
else if pc =? pcDescribeVal then Some (sampleRFunc symDescribeVal pcDescribeVal sampleSource)
else if pc =? pcDescribeFm then Some (sampleRFunc symDescribeFm pcDescribeFm sampleSource)
else if pc =? pcStart
     then Some (sampleRFunc symStart pcStart "/usr/local/go/src/runtime/rt0_linux_amd64.s")
else if pc =? pcExport then Some (sampleRFunc symExport pcExport exportSource)
else None.

Definition noSuchFile (filename : string) : error :=
foreignError ("open " +:+ filename +:+ ": no such file or directory").

(** The sample source has a syntax error after the declarations: the
    parser hands back a partial tree and the error. *)
Definition sampleParseFile (filename : string) : ParseResult string :=
if strings.eqb filename sampleSource
then ParsedPartial "sample.go" (foreignError "sample.go:40:1: expected declaration, found '}'")
else if strings.eqb filename exportSource then Parsed "_cgo_gotypes.go"
else ParseFailed (noSuchFile filename).

(** *** Sample packages *)

Definition samplePath : string := "github.com/podhmo/reflect-shape/metadata".

(** What the loader hands back for [samplePath] with test files included: a
    variant that failed to load, the generated test binary (another path),
    and the package itself. *)
Definition samplePackages : list (Package string) :=
[ {| pkgID := samplePath +:+ " [" +:+ samplePath +:+ ".test]";
     pkgName := "metadata"; pkgPkgPath := samplePath;
     pkgErrors := [foreignError "sample_test.go:3:8: could not import testing"];
     pkgSyntax := [] |};
  {| pkgID := samplePath +:+ ".test";
     pkgName := "main"; pkgPkgPath := samplePath +:+ ".test";
     pkgErrors := []; pkgSyntax := ["_testmain.go"] |};
  {| pkgID := samplePath;
     pkgName := "metadata"; pkgPkgPath := samplePath;
     pkgErrors := []; pkgSyntax := ["sample.go"; "lookup.go"] |} ].

Definition emptyIndex : collect.Package.t :=
{| collect.Package.Types := ∅; collect.Package.Functions := ∅ |}.

Definition sampleWorld : World string :=
{| FuncForPC := sampleFuncForPC;
   ParseFile := sampleParseFile;
   commentofFile := fun _ _ => Ok sampleIndex;
   ReadBuildInfo := Some {| BuildInfo.Path := samplePath |};
   packagesLoad := fun _ pkgpath =>
     if strings.eqb pkgpath samplePath then Ok samplePackages else Ok [];
   fileName := fun f => "/go/src/" +:+ samplePath +:+ "/" +:+ f;
   commentofPackage := fun _ tree =>
     if strings.eqb (astName tree) "metadata" then Ok sampleIndex else Ok emptyIndex |}.

(** The world [w] without build information, and with another loader. *)
Definition withoutBuildInfo {AstFile : Type} (w : World AstFile) : World AstFile :=
{| FuncForPC := FuncForPC w;
   ParseFile := ParseFile w;
   commentofFile := commentofFile w;
   ReadBuildInfo := None;
   packagesLoad := packagesLoad w;
   fileName := fileName w;
   commentofPackage := commentofPackage w |}.

Definition withPackagesLoad {AstFile : Type} (w : World AstFile)
    (load : PackagesConfig.t → string → result (list (Package AstFile))) : World AstFile :=
{| FuncForPC := FuncForPC w;
   ParseFile := ParseFile w;
   commentofFile := commentofFile w;
   ReadBuildInfo := ReadBuildInfo w;
   packagesLoad := load;
   fileName := fileName w;
   commentofPackage := commentofPackage w |}.

Definition sampleLookup : Lookup.t :=
{| Lookup.Fset := NewFileSet; Lookup.accessor := Accessor.New;
   Lookup.IncludeGoTestFiles := true; Lookup.IncludeUnexported := true |}.

(** [User] as reflection shows it in its own package, and in a program
    whose entry package declares it. *)
Definition userType : ReflectType.t :=
{| ReflectType.Name := "User"; ReflectType.PkgPath := samplePath; ReflectType.String := "metadata.User" |}.

Definition mainUserType : ReflectType.t :=
{| ReflectType.Name := "User"; ReflectType.PkgPath := "main"; ReflectType.String := "main.User" |}.

Definition missingType : ReflectType.t :=
{| ReflectType.Name := "Missing"; ReflectType.PkgPath := samplePath; ReflectType.String := "metadata.Missing" |}.

(** The paths of the load requests in a trace. *)
Definition loadRequests {AstFile : Type} (t : list (Event AstFile)) : list string :=
omap (fun ev => match ev with EvPackagesLoad _ pkgpath => Some pkgpath | _ => None end) t.

(** [errors.Is(err, ErrNotFound)] on the error side of a result pair. *)
Definition isNotFound {A : Type} (r : result A) : bool :=
match r with
| Ok _ => false
| Err e => errors.IsNotFound e
end.

(** The package [pkg] is a candidate of the struct lookup for [pkgpath]: it
    loaded without error and its path is [pkgpath]. *)
Definition candidate {AstFile : Type} (pkgpath : string) (pkg : Package AstFile) : Prop :=
pkgErrors pkg = [] ∧ pkgPkgPath pkg = pkgpath.

(** The index the indexer builds for the package [pkg]. *)
Definition packageIndex {AstFile : Type} (w : World AstFile) (l : Lookup.t)
    (pkg : Package AstFile) : result collect.Package.t :=
commentofPackage w (Lookup.IncludeUnexported l) (packageTree w pkg).

(** The world [w] with other indexers. *)
Definition withIndexers {AstFile : Type} (w : World AstFile)
    (indexFile : bool → AstFile → result collect.Package.t)
    (indexPackage : bool → AstPackage AstFile → result collect.Package.t)
  : World AstFile :=
{| FuncForPC := FuncForPC w;
   ParseFile := ParseFile w;
   commentofFile := indexFile;
   ReadBuildInfo := ReadBuildInfo w;
   packagesLoad := packagesLoad w;
   fileName := fileName w;
   commentofPackage := indexPackage |}.

(** Indexers that fail. *)
Definition failingIndexFile {AstFile : Type} (_ : bool) (_ : AstFile)
  : result collect.Package.t :=
Err (foreignError "collect file: unsupported declaration").

Definition failingIndexPackage {AstFile : Type} (_ : bool) (_ : AstPackage AstFile)
  : result collect.Package.t :=
Err (foreignError "collect package: unsupported declaration").

Definition failingIndexWorld : World string :=
withIndexers sampleWorld failingIndexFile failingIndexPackage.


(** A configuration as a caller writes it, [Config{IncludeGoTestFiles: true}]
    with no lookup and no extractor yet. *)
Definition freshConfig : @Config nat _ _ unit unit :=
{| cfgSkipComments := false; cfgFillArgNames := false; cfgFillReturnNames := false;
   cfgIncludeGoTestFiles := true; cfgDocTruncationSize := 0;
   cfgExtractor := None; cfgLookup := None |}.


(** ** Further readings of the records and lookups *)

(** The name [fields[id].Name] of one id, [None] where the id has no
    entry. *)
Definition nameOfId (fields : gmap string collect.Field.t) (id : string) : option string :=
collect.Field.Name <$> fields !! id.

(** The string begins with a white-space rune. *)
Definition startsWithSpace (s : string) : bool :=
match s with
| EmptyString => false
| String a r1 =>
    strings.asciiSpace a
    || match r1 with
       | EmptyString => false
       | String b r2 =>
           strings.space2 a b
           || match r2 with
              | EmptyString => false
              | String c _ => strings.space3 a b c
              end
       end
end.

(** The reversed string begins with the bytes of a white-space rune, last
    byte first. *)
Definition startsWithSpaceRev (s : string) : bool :=
match s with
| EmptyString => false
| String a r1 =>
    strings.asciiSpace a
    || match r1 with
       | EmptyString => false
       | String b r2 =>
           strings.space2 b a
           || match r2 with
              | EmptyString => false
              | String c _ => strings.space3 c b a
              end
       end
end.

(** The first byte of the string satisfies [f]. *)
Definition startsIn (f : ascii → bool) (s : string) : bool :=
match s with
| EmptyString => false
| String c _ => f c
end.

(** The final path segment of a runtime symbol: what follows its last path
    separator. *)
Definition finalSegment (fullname : string) : string :=
default "" (last (strings.Split fullname "/")).

(** The event carries a call that only the struct lookup makes. *)
Definition isPackageEvent {AstFile : Type} (ev : Event AstFile) : bool :=
match ev with
| EvReadBuildInfo | EvLog _ | EvPackagesLoad _ _ | EvCommentofPackage _ _ => true
| EvFuncForPC _ | EvParseFile _ | EvCommentofFile _ _ => false
end.

(** The record [Describe] as the function lookup returns it. *)
Definition describeFunc : Func.t :=
{| Func.pc := pcDescribePtr; Func.Raw := describeRecord; Func.Recv := "S" |}.

(** The error of the struct lookup for a failure of the indexer on the
    package [pkg]. *)
Definition collectError {AstFile : Type} (pkg : Package AstFile) (rt : ReflectType.t)
    (err : error) : error :=
wrapError ("collect: dir=" +:+ pkgPkgPath pkg +:+ ", name=" +:+ ReflectType.Name rt
           +:+ ", " +:+ errors.Error err) err.

(** The error of the struct lookup for a failure of the loader. *)
Definition loadError (err : error) : error :=
wrapError ("packages.Load() " +:+ errors.Error err) err.

(** [errors.Unwrap(e)]: the error [e] wraps, if any. *)
Definition Unwrap (e : error) : option error :=
match e with
| wrapError _ err => Some err
| _ => None
end.

(** The type [rt] as declared in the package [pkgpath]. *)
Definition withPkgPath (rt : ReflectType.t) (pkgpath : string) : ReflectType.t :=
{| ReflectType.Name := ReflectType.Name rt;
   ReflectType.PkgPath := pkgpath;
   ReflectType.String := ReflectType.String rt |}.

(** The loader of [w] with every package dropped that is no candidate for
    the requested path. *)
Definition loadCandidates {AstFile : Type} (w : World AstFile)
    (cfg : PackagesConfig.t) (pkgpath : string) : result (list (Package AstFile)) :=
match packagesLoad w cfg pkgpath with
| Ok pkgs => Ok (filter (candidate pkgpath) pkgs)
| Err err => Err err
end.

(** The messages logged in a trace. *)
Definition logMessages {AstFile : Type} (t : list (Event AstFile)) : list string :=
omap (fun ev => match ev with EvLog msg => Some msg | _ => None end) t.

(** The messages [logPackageErrors] writes for [pkg]. *)
Definition packageErrorMessages {AstFile : Type} (pkg : Package AstFile) : list string :=
(fun err => "lookup package error (" +:+ pkgID pkg +:+ ") " +:+ errors.Error err)
  <$> pkgErrors pkg.

(** The event is no call with a flag, or it carries the flags of [l]. *)
Definition carriesFlagsOf {AstFile : Type} (l : Lookup.t) (ev : Event AstFile) : Prop :=
match ev with
| EvCommentofFile b _ | EvCommentofPackage b _ => b = Lookup.IncludeUnexported l
| EvPackagesLoad cfg _ =>
    PackagesConfig.Tests cfg = Lookup.IncludeGoTestFiles l
    ∧ PackagesConfig.Mode cfg = [NeedName; NeedFiles; NeedSyntax]
| _ => True
end.

(** The package of [samplePackages] that is the candidate for [samplePath],
    and the two before it in load order. *)
Definition metadataPackage : Package string :=
{| pkgID := samplePath;
   pkgName := "metadata"; pkgPkgPath := samplePath;
   pkgErrors := []; pkgSyntax := ["sample.go"; "lookup.go"] |}.

Definition passedOverPackages : list (Package string) := take 2 samplePackages.

(** The caller's stores to the exported fields [SkipComments] and
    [IncludeGoTestFiles] of a configuration. *)
Definition setSkipComments {ID : Type} `{Countable ID} {Shape ShapePackage : Type}
    (c : @Config ID _ _ Shape ShapePackage) (b : bool) : @Config ID _ _ Shape ShapePackage :=
{| cfgSkipComments := b; cfgFillArgNames := cfgFillArgNames c;
   cfgFillReturnNames := cfgFillReturnNames c;
   cfgIncludeGoTestFiles := cfgIncludeGoTestFiles c;
   cfgDocTruncationSize := cfgDocTruncationSize c;
   cfgExtractor := cfgExtractor c; cfgLookup := cfgLookup c |}.

Definition setIncludeGoTestFiles {ID : Type} `{Countable ID} {Shape ShapePackage : Type}
    (c : @Config ID _ _ Shape ShapePackage) (b : bool) : @Config ID _ _ Shape ShapePackage :=
{| cfgSkipComments := cfgSkipComments c; cfgFillArgNames := cfgFillArgNames c;
   cfgFillReturnNames := cfgFillReturnNames c;
   cfgIncludeGoTestFiles := b;
   cfgDocTruncationSize := cfgDocTruncationSize c;
   cfgExtractor := cfgExtractor c; cfgLookup := cfgLookup c |}.

(** A configuration that skips comments, as a caller writes it. *)
Definition skippingConfig : @Config nat _ _ unit unit :=
{| cfgSkipComments := true; cfgFillArgNames := false; cfgFillReturnNames := false;
   cfgIncludeGoTestFiles := false; cfgDocTruncationSize := 80;
   cfgExtractor := None; cfgLookup := None |}.

(** The lookup [l] with another [IncludeGoTestFiles]. *)
Definition withIncludeGoTestFiles (l : Lookup.t) (b : bool) : Lookup.t :=
{| Lookup.Fset := Lookup.Fset l; Lookup.accessor := Lookup.accessor l;
   Lookup.IncludeGoTestFiles := b;
   Lookup.IncludeUnexported := Lookup.IncludeUnexported l |}.



(** * Properties *)

(** ** Strings *)

Section StringFacts.

Import strings.

Lemma append_cons (c : ascii) (a b : string) :
  String c a +:+ b = String c (a +:+ b).
Proof. reflexivity. Qed.

Lemma append_nil_l (s : string) : "" +:+ s = s.
Proof. reflexivity. Qed.

Lemma append_nil_r (s : string) : s +:+ "" = s.
Proof.
  induction s as [|c s IH]; [done |].
  by rewrite append_cons, IH.
Qed.

Lemma append_assoc (a b c : string) : (a +:+ b) +:+ c = a +:+ (b +:+ c).
Proof.
  induction a as [|x a IH]; [done |].
  by rewrite !append_cons, IH.
Qed.

Lemma rev_onto_app (s acc : string) : rev_onto s acc = rev s +:+ acc.
Proof.
  unfold rev. revert acc.
  induction s as [|c s IH]; intros acc; simpl; [done |].
  rewrite (IH (String c acc)), (IH (String c "")), append_assoc. done.
Qed.

Lemma rev_cons (c : ascii) (s : string) : rev (String c s) = rev s +:+ String c "".
Proof. unfold rev at 1. simpl. apply rev_onto_app. Qed.

Lemma rev_app (a b : string) : rev (a +:+ b) = rev b +:+ rev a.
Proof.
  induction a as [|c a IH].
  - change (rev b = rev b +:+ ""). by rewrite append_nil_r.
  - by rewrite append_cons, !rev_cons, IH, append_assoc.
Qed.

Lemma rev_involutive (s : string) : rev (rev s) = s.
Proof.
  induction s as [|c s IH]; [done |].
  by rewrite rev_cons, rev_app, IH.
Qed.

Lemma hasByte_app (a b : string) (c : ascii) :
  hasByte (a +:+ b) c = hasByte a c || hasByte b c.
Proof.
  induction a as [|d a IH]; [done |].
  rewrite append_cons. simpl. by rewrite IH, orb_assoc.
Qed.

Lemma hasByte_cons (d : ascii) (s : string) (c : ascii) :
  hasByte (String d s) c = Ascii.eqb d c || hasByte s c.
Proof. reflexivity. Qed.

(** *** Split *)

Lemma Split_nonempty (s : string) (sep : ascii) : is_Some (last (Split s sep)).
Proof.
  unfold Split. destruct (splitSegments s sep) as [seg segs].
  destruct (last (seg :: segs)) eqn:E; [eauto |].
  by apply last_None in E.
Qed.

Lemma Split_no_sep (s : string) (sep : ascii) :
  hasByte s sep = false → Split s sep = [s].
Proof.
  unfold Split. induction s as [|c s IH]; simpl; [done |].
  intros [Hc Hs]%orb_false_elim. rewrite Hc.
  specialize (IH Hs). destruct (splitSegments s sep) as [seg segs].
  by simplify_eq.
Qed.

Lemma Split_cons_sep (a b : string) (sep : ascii) :
  hasByte a sep = false →
  Split (a +:+ String sep b) sep = a :: Split b sep.
Proof.
  unfold Split. induction a as [|c a IH]; rewrite ?append_cons, ?append_nil_l; simpl.
  - intros _. rewrite Ascii.eqb_refl.
    by destruct (splitSegments b sep) as [seg segs].
  - intros [Hc Ha]%orb_false_elim. rewrite Hc. specialize (IH Ha).
    destruct (splitSegments (a +:+ String sep b) sep) as [seg segs].
    destruct (splitSegments b sep) as [seg' segs'].
    by simplify_eq.
Qed.

Lemma Split_last_cons_sep (a b : string) (sep : ascii) :
  hasByte a sep = false →
  last (Split (a +:+ String sep b) sep) = last (Split b sep).
Proof.
  intros Ha. rewrite Split_cons_sep by done.
  destruct (Split_nonempty b sep) as [x Hx].
  destruct (Split b sep); [done | done].
Qed.

Lemma Split_last_joinPath (dirs : list string) (seg : string) :
  Forall (fun d => hasByte d "/" = false) dirs →
  hasByte seg "/" = false →
  last (Split (joinPath dirs seg) "/") = Some seg.
Proof.
  intros Hdirs Hseg. induction Hdirs as [|d dirs Hd _ IH]; simpl.
  - by rewrite Split_no_sep.
  - by rewrite Split_last_cons_sep.
Qed.

(** *** Cut *)

Lemma Cut_found (a b : string) (sep : ascii) :
  hasByte a sep = false → Cut (a +:+ String sep b) sep = (a, b, true).
Proof.
  induction a as [|c a IH]; rewrite ?append_cons, ?append_nil_l; simpl.
  - intros _. by rewrite Ascii.eqb_refl.
  - intros [Hc Ha]%orb_false_elim. by rewrite Hc, IH.
Qed.

Lemma Cut_not_found (s : string) (sep : ascii) :
  hasByte s sep = false → Cut s sep = (s, "", false).
Proof.
  induction s as [|c s IH]; simpl; [done |].
  intros [Hc Hs]%orb_false_elim. by rewrite Hc, IH.
Qed.

Lemma Cut_found_inv (s before after : string) (sep : ascii) :
  Cut s sep = (before, after, true) →
  s = before +:+ String sep after ∧ hasByte before sep = false.
Proof.
  revert before. induction s as [|c s IH]; intros before; simpl; [done |].
  destruct (Ascii.eqb_spec c sep) as [->|Hne].
  - intros [= <- <-]. done.
  - destruct (Cut s sep) as [[b a] f]. intros [= <- <- ->].
    destruct (IH b eq_refl) as [-> Hb]. split; [done |].
    simpl. rewrite Hb. by apply Ascii.eqb_neq in Hne as ->.
Qed.

Lemma Cut_not_found_inv (s before after : string) (sep : ascii) :
  Cut s sep = (before, after, false) → hasByte s sep = false.
Proof.
  revert before. induction s as [|c s IH]; intros before; simpl; [done |].
  destruct (Ascii.eqb c sep); [done |].
  destruct (Cut s sep) as [[b a] f]. intros [= <- <- ->]. simpl. eauto.
Qed.

(** *** Trim *)

Lemma trimLeftBytes_app (f : ascii → bool) (a b : string) :
  trimLeftBytes f (a +:+ b) =
  match trimLeftBytes f a with
  | EmptyString => trimLeftBytes f b
  | t => t +:+ b
  end.
Proof.
  induction a as [|c a IH]; [done |].
  rewrite append_cons. simpl. by destruct (f c).
Qed.

Lemma Trim_drop_head (f : ascii → bool) (c : ascii) (s : string) :
  f c = true →
  trimLeftBytes f (trimRightBytes f (String c s)) = trimLeftBytes f (trimRightBytes f s).
Proof.
  intros Hc. unfold trimRightBytes. rewrite rev_cons, trimLeftBytes_app.
  destruct (trimLeftBytes f (rev s)) as [|d t] eqn:E.
  - simpl. by rewrite Hc.
  - rewrite rev_app. simpl. unfold rev at 1. simpl. by rewrite Hc.
Qed.

Lemma Trim_drop_last (f : ascii → bool) (c : ascii) (s : string) :
  f c = true →
  trimRightBytes f (s +:+ String c "") = trimRightBytes f s.
Proof.
  intros Hc. unfold trimRightBytes. rewrite rev_app.
  unfold rev at 2. simpl. by rewrite Hc.
Qed.

Lemma Trim_pointerRecv (T : string) :
  Trim (pointerRecv T) receiverMarkers = Trim T receiverMarkers.
Proof.
  unfold Trim, pointerRecv.
  rewrite !Trim_drop_head by done.
  by rewrite Trim_drop_last.
Qed.

Lemma TrimSpace_empty : TrimSpace "" = "".
Proof. reflexivity. Qed.

End StringFacts.

(** ** Argument and result names *)

Lemma fillNames_listsPositions (fields : gmap string collect.Field.t)
    (ids names : list string) :
  listsPositions fields ids names →
  ∀ (i : nat) (acc : list string),
    length acc = (i + length ids)%nat →
    fillNames fields ids i acc = Some (take i acc ++ names).
Proof.
  induction 1 as [|id name ids names (f & Hf & Hname) _ IH]; intros i acc Hlen; simpl.
  - simpl in Hlen. rewrite take_ge by lia. by rewrite app_nil_r.
  - rewrite Hf, Hname. simpl in Hlen.
    rewrite IH by (rewrite length_insert; lia).
    f_equal.
    rewrite (take_S_r _ _ name) by (apply list_lookup_insert_eq; lia).
    rewrite take_insert_ge by lia.
    by rewrite <- app_assoc.
Qed.

Lemma fieldNames_listsPositions (fields : gmap string collect.Field.t)
    (ids names : list string) :
  listsPositions fields ids names → fieldNames fields ids = Some names.
Proof.
  intros H. unfold fieldNames.
  rewrite (fillNames_listsPositions _ _ _ H) by (rewrite length_replicate; lia).
  done.
Qed.

(** Whatever the record, a list that [Args()] or [Returns()] returns has one
    entry per listed id. *)
Lemma fillNames_length (fields : gmap string collect.Field.t) (ids : list string)
    (i : nat) (acc names : list string) :
  fillNames fields ids i acc = Some names → length names = length acc.
Proof.
  revert i acc. induction ids as [|id ids IH]; intros i acc; simpl.
  - by intros [= ->].
  - destruct (fields !! id) as [f |]; [| done].
    intros Hfill. rewrite (IH _ _ Hfill). apply length_insert.
Qed.

Lemma fieldNames_length (fields : gmap string collect.Field.t) (ids names : list string) :
  fieldNames fields ids = Some names → length names = length ids.
Proof.
  intros Hnames. rewrite (fillNames_length _ _ _ _ _ Hnames). apply length_replicate.
Qed.

(** C1. For a function whose record is the record of its declaration,
    [Args()] returns exactly the declared parameter names: as many entries
    as declared parameters, in declaration order, the empty string at each
    unnamed position; [Returns()] does the same for the declared results. *)
Theorem Args_Returns_declared (m : Func.t) (d : FuncDecl.t) :
  recordOfDecl (Func.Raw m) d →
  (∃ args, Func_Args m = Some args
           ∧ length args = length (FuncDecl.params d)
           ∧ ∀ i, args !! i = FuncDecl.params d !! i)
  ∧ (∃ rets, Func_Returns m = Some rets
             ∧ length rets = length (FuncDecl.results d)
             ∧ ∀ i, rets !! i = FuncDecl.results d !! i).
Proof.
  intros [Hp Hr]. split.
  - exists (FuncDecl.params d). split; [| done].
    by apply fieldNames_listsPositions.
  - exists (FuncDecl.results d). split; [| done].
    by apply fieldNames_listsPositions.
Qed.

Lemma addRecord_recordOfDecl : recordOfDecl addRecord addDecl.
Proof.
  split; unfold listsPositions; simpl;
    repeat (constructor; [eexists; split; reflexivity |]);
    constructor.
Qed.

Lemma Args_Returns_declared_witness :
  recordOfDecl (Func.Raw addFunc) addDecl
  ∧ (∃ args, Func_Args addFunc = Some args
             ∧ length args = length (FuncDecl.params addDecl)
             ∧ ∀ i, args !! i = FuncDecl.params addDecl !! i)
  ∧ (∃ rets, Func_Returns addFunc = Some rets
             ∧ length rets = length (FuncDecl.results addDecl)
             ∧ ∀ i, rets !! i = FuncDecl.results addDecl !! i).
Proof.
  split.
  - exact addRecord_recordOfDecl.
  - apply (Args_Returns_declared addFunc addDecl). exact addRecord_recordOfDecl.
Defined.

Example Args_addFunc : Func_Args addFunc = Some ["ctx"; "a"; "b"; ""].
Proof. vm_compute. reflexivity. Qed.

Example Returns_addFunc : Func_Returns addFunc = Some ["sum"; ""].
Proof. vm_compute. reflexivity. Qed.

(** ** Comment selection *)

Lemma docOrComment_selectComment (doc comment : string) :
  docOrComment doc comment = selectComment doc comment.
Proof.
  unfold docOrComment, selectComment, strings.eqb.
  destruct (String.eqb_spec doc "") as [-> | Hdoc].
  - rewrite bool_decide_eq_false_2 by auto.
    case_bool_decide as Hc; [done |].
    subst comment. apply TrimSpace_empty.
  - by rewrite bool_decide_eq_true_2.
Qed.

Lemma FieldComments_foldl (fields : list collect.Field.t) (k : string) :
  foldl (fun comments f =>
           <[collect.Field.Name f :=
               docOrComment (collect.Field.Doc f) (collect.Field.Comment f)]> comments)
        (∅ : gmap string string) fields !! k
  = fieldComment <$> last (filter (fun f => collect.Field.Name f = k) fields).
Proof.
  induction fields as [|f fields IH] using rev_ind; [done |].
  rewrite foldl_snoc, filter_app, last_app, filter_cons, filter_nil.
  destruct (decide (collect.Field.Name f = k)) as [<- | Hne]; simpl.
  - rewrite lookup_insert_eq. unfold fieldComment.
    by rewrite docOrComment_selectComment.
  - by rewrite lookup_insert_ne.
Qed.

(** C2. [Struct.Doc()] is the selected comment of the declaration: the doc
    comment trimmed when there is one (whatever the trailing comment says),
    else the trailing comment trimmed when there is one, else the empty
    string.  Every entry of [Struct.FieldComments()] is the selected comment
    of a field of that name, the one visited last, and a name no field
    bears has no entry. *)
Theorem Doc_FieldComments_select (s : Struct.t) :
  Struct_Doc s
  = selectComment (collect.Object.Doc (Struct.Raw s)) (collect.Object.Comment (Struct.Raw s))
  ∧ ∀ k : string,
      Struct_FieldComments s !! k = fieldComment <$> last (fieldsNamed (Struct.Raw s) k).
Proof.
  split.
  - apply docOrComment_selectComment.
  - intros k. apply FieldComments_foldl.
Qed.

(** With a doc comment the trailing comment never shows, whatever it is. *)
Lemma selectComment_doc_wins (doc trailing : string) :
  doc ≠ "" → selectComment doc trailing = strings.TrimSpace doc.
Proof. intros Hdoc. unfold selectComment. by rewrite bool_decide_eq_true_2. Qed.

(** When field names are distinct every field has its own entry. *)
Lemma FieldComments_distinct (s : Struct.t) (f : collect.Field.t) :
  NoDup (collect.Field.Name <$> collect.Object.Fields (Struct.Raw s)) →
  f ∈ collect.Object.Fields (Struct.Raw s) →
  Struct_FieldComments s !! collect.Field.Name f = Some (fieldComment f).
Proof.
  intros Hnd Hin.
  unfold Struct_FieldComments. rewrite FieldComments_foldl.
  induction (collect.Object.Fields (Struct.Raw s)) as [|g fields IH] using rev_ind.
  - by apply elem_of_nil in Hin.
  - rewrite fmap_app in Hnd. apply NoDup_app in Hnd as (Hnd1 & Hdisj & _).
    rewrite filter_app, last_app, filter_cons, filter_nil.
    apply elem_of_app in Hin as [Hin | Hin%list_elem_of_singleton].
    + rewrite decide_False.
      * simpl. by apply IH.
      * intros Heq. apply (Hdisj (collect.Field.Name f)).
        -- by apply list_elem_of_fmap_2.
        -- simpl. rewrite Heq. apply list_elem_of_singleton. done.
    + subst g. by rewrite decide_True.
Qed.

Example userStruct_Doc : Struct_Doc userStruct = "User is the object for User.".
Proof. vm_compute. reflexivity. Qed.

Example userStruct_FieldComments :
  Struct_FieldComments userStruct
  = <["Name" := "name of User."]> (<["Age" := "age of User."]> ∅).
Proof. apply map_eq. intros k. vm_compute. reflexivity. Qed.

(** ** Demangling *)

(** Every symbol is the [joinPath] of segments without path separator. *)
Lemma joinPath_decompose (s : string) :
  ∃ dirs seg, s = joinPath dirs seg ∧ Forall noSlash dirs ∧ noSlash seg.
Proof.
  induction s as [|c s (dirs & seg & -> & Hdirs & Hseg)].
  - by exists [], "".
  - destruct (Ascii.eqb_spec c "/") as [-> | Hc].
    + exists ("" :: dirs), seg. repeat split; [| done]. by constructor.
    + apply Ascii.eqb_neq in Hc. destruct dirs as [|d dirs].
      * exists [], (String c seg). repeat split; [done |].
        unfold noSlash. simpl. by rewrite Hc.
      * exists (String c d :: dirs), seg. repeat split; [| done].
        inversion_clear Hdirs. constructor; [| done].
        unfold noSlash. simpl. by rewrite Hc.
Qed.

Lemma last_Split_joinPath (dirs : list string) (seg : string) :
  Forall noSlash dirs → noSlash seg →
  default "" (last (strings.Split (joinPath dirs seg) "/")) = seg.
Proof. intros Hd Hs. by rewrite Split_last_joinPath. Qed.

Lemma noSlash_methodSegment (pkg recv name : string) :
  noSlash pkg → noSlash recv → noSlash name → noSlash (methodSegment pkg recv name).
Proof.
  unfold noSlash, methodSegment. intros Hp Hr Hn.
  rewrite hasByte_app. simpl. rewrite hasByte_app. simpl.
  by rewrite Hp, Hr, Hn.
Qed.

Lemma noSlash_funcSegment (pkg name : string) :
  noSlash pkg → noSlash name → noSlash (funcSegment pkg name).
Proof.
  unfold noSlash, funcSegment. intros Hp Hn.
  rewrite hasByte_app. simpl. by rewrite Hp, Hn.
Qed.

Lemma hasByte_pointerRecv (T : string) (c : ascii) :
  strings.inCutset receiverMarkers c = false →
  strings.hasByte (pointerRecv T) c = strings.hasByte T c.
Proof.
  unfold pointerRecv, receiverMarkers.
  rewrite !hasByte_cons, hasByte_app, hasByte_cons.
  change (strings.inCutset (String "(" (String "*" (String ")" ""))) c)
    with ((c =? "(")%char || ((c =? "*")%char || ((c =? ")")%char || false))).
  rewrite !(Ascii.eqb_sym c).
  intros [-> [-> [-> _]%orb_false_elim]%orb_false_elim]%orb_false_elim.
  simpl. by rewrite orb_false_r.
Qed.

Lemma splitSymbol_method (dirs : list string) (pkg recv name : string) :
  Forall noSlash dirs → noSlash pkg → noDot pkg →
  noSlash recv → noDot recv → noSlash name →
  splitSymbol (joinPath dirs (methodSegment pkg recv name))
  = Ok (strings.Trim recv receiverMarkers, name, true).
Proof.
  intros Hd Hp Hp' Hr Hr' Hn. unfold splitSymbol.
  rewrite last_Split_joinPath by auto using noSlash_methodSegment.
  unfold methodSegment. rewrite (Cut_found pkg) by done. simpl.
  by rewrite (Cut_found recv).
Qed.

Lemma splitSymbol_func (dirs : list string) (pkg name : string) :
  Forall noSlash dirs → noSlash pkg → noDot pkg → noSlash name → noDot name →
  splitSymbol (joinPath dirs (funcSegment pkg name)) = Ok ("", name, false).
Proof.
  intros Hd Hp Hp' Hn Hn'. unfold splitSymbol.
  rewrite last_Split_joinPath by auto using noSlash_funcSegment.
  unfold funcSegment. rewrite (Cut_found pkg) by done. simpl.
  by rewrite (Cut_not_found name).
Qed.


(** ** Running a computation *)

Section Runs.

Context {AstFile : Type}.
Implicit Types (w : World AstFile) (l : Lookup.t).

Lemma bind_Ok {A B} (m : M AstFile A) (k : A → M AstFile B) (t : list (Event AstFile)) (a : A) :
  m = (t, Ok a) → bind m k = (t ++ (k a).1, (k a).2).
Proof. intros ->. simpl. by destruct (k a). Qed.

Lemma bind_Err {A B} (m : M AstFile A) (k : A → M AstFile B) (t : list (Event AstFile)) (e : error) :
  m = (t, Err e) → bind m k = (t, Err e).
Proof. by intros ->. Qed.

(** The lookup of a function whose address resolves and whose file gives a
    tree: three calls, then demangling and selection in the index. *)
Lemma LookupFromFuncForPC_tree w l pc rfunc f :
  FuncForPC w pc = Some rfunc →
  parseTree (ParseFile w (sourceFile rfunc)) = Some f →
  LookupFromFuncForPC w l pc =
  ([EvFuncForPC pc; EvParseFile (sourceFile rfunc);
    EvCommentofFile (Lookup.IncludeUnexported l) f],
   match commentofFile w (Lookup.IncludeUnexported l) f with
   | Err e => Err e
   | Ok p =>
       match splitSymbol (RFunc.Name rfunc) with
       | Ok (recv, name, isMethod) => selectFunc p pc (RFunc.Name rfunc) recv name isMethod
       | Err e => Err e
       end
   end).
Proof.
  intros Hpc Hparse. unfold LookupFromFuncForPC, sourceFile in *.
  rewrite Hpc. destruct (RFunc.FileLine rfunc (RFunc.Entry rfunc)) as [filename line].
  simpl in Hparse.
  destruct (ParseFile w filename) as [f' | f' err | err]; simplify_eq/=;
    (destruct (commentofFile w (Lookup.IncludeUnexported l) f) as [p | e]; simpl; [| done]);
    destruct (splitSymbol (RFunc.Name rfunc)) as [[[recv name] isMethod] | e]; simpl; done.
Qed.

Lemma LookupFromFuncForPC_indexed w l pc rfunc f p :
  FuncForPC w pc = Some rfunc →
  parseTree (ParseFile w (sourceFile rfunc)) = Some f →
  commentofFile w (Lookup.IncludeUnexported l) f = Ok p →
  (LookupFromFuncForPC w l pc).2 =
  match splitSymbol (RFunc.Name rfunc) with
  | Ok (recv, name, isMethod) => selectFunc p pc (RFunc.Name rfunc) recv name isMethod
  | Err e => Err e
  end.
Proof.
  intros Hpc Hparse Hindex.
  rewrite (LookupFromFuncForPC_tree _ _ _ _ _ Hpc Hparse). simpl. by rewrite Hindex.
Qed.

Lemma LookupFromFuncForPC_parse_failed w l pc rfunc err :
  FuncForPC w pc = Some rfunc →
  ParseFile w (sourceFile rfunc) = ParseFailed err →
  LookupFromFuncForPC w l pc
  = ([EvFuncForPC pc; EvParseFile (sourceFile rfunc)], Err err).
Proof.
  intros Hpc Hparse. unfold LookupFromFuncForPC, sourceFile in *.
  rewrite Hpc. destruct (RFunc.FileLine rfunc (RFunc.Entry rfunc)) as [filename line].
  simpl in Hparse. by rewrite Hparse.
Qed.

End Runs.

(** ** The function lookup *)

Lemma errNotResolvable_ne_unexpected (fullname : string) :
  errNotResolvable ≠ errUnexpectedSymbolForm fullname.
Proof. unfold errNotResolvable, errUnexpectedSymbolForm. intros [= H]. Qed.

(** C7. For an entry address without symbol-table entry the lookup fails
    with the error "cannot find runtime.Func" after the single call that
    asked the runtime: no file is parsed.  The error is not [ErrNotFound]
    and differs from every error for a symbol that does not split. *)
Theorem unresolved_address_fails {AstFile : Type} (w : World AstFile) (l : Lookup.t) (pc : Z) :
  FuncForPC w pc = None →
  LookupFromFuncForPC w l pc = ([EvFuncForPC pc], Err errNotResolvable)
  ∧ existsb isParseEvent (LookupFromFuncForPC w l pc).1 = false
  ∧ isNotFound (LookupFromFuncForPC w l pc).2 = false
  ∧ ∀ fullname, errNotResolvable ≠ errUnexpectedSymbolForm fullname.
Proof.
  intros Hpc.
  assert (LookupFromFuncForPC w l pc = ([EvFuncForPC pc], Err errNotResolvable)) as ->.
  { unfold LookupFromFuncForPC. by rewrite Hpc. }
  repeat split. apply errNotResolvable_ne_unexpected.
Qed.

Lemma unresolved_address_fails_witness :
  FuncForPC sampleWorld 7 = None
  ∧ LookupFromFuncForPC sampleWorld sampleLookup 7 = ([EvFuncForPC 7], Err errNotResolvable).
Proof.
  split.
  - reflexivity.
  - apply (unresolved_address_fails sampleWorld sampleLookup 7). reflexivity.
Defined.




(** C10. The function lookup stops at the parser only when the parser
    returns no tree; a partial tree that comes with an error is indexed like
    a tree that comes without one, and the error plays no part. *)
Theorem partial_tree_is_indexed {AstFile : Type} (w : World AstFile) (l : Lookup.t)
    (pc : Z) (rfunc : RFunc.t) :
  FuncForPC w pc = Some rfunc →
  (∀ err, ParseFile w (sourceFile rfunc) = ParseFailed err →
     LookupFromFuncForPC w l pc
     = ([EvFuncForPC pc; EvParseFile (sourceFile rfunc)], Err err))
  ∧ (∀ f err, ParseFile w (sourceFile rfunc) = ParsedPartial f err →
       LookupFromFuncForPC w l pc
       = LookupFromFuncForPC (withParseFile w (fun _ => Parsed f)) l pc
       ∧ (LookupFromFuncForPC w l pc).1 !! 2%nat
         = Some (EvCommentofFile (Lookup.IncludeUnexported l) f)).
Proof.
  intros Hpc. split.
  - intros err Hparse. by apply LookupFromFuncForPC_parse_failed.
  - intros f err Hparse.
    rewrite (LookupFromFuncForPC_tree w l pc rfunc f) by (by rewrite ?Hparse).
    rewrite (LookupFromFuncForPC_tree (withParseFile w (fun _ => Parsed f)) l pc rfunc f)
      by done.
    done.
Qed.

Lemma partial_tree_is_indexed_witness :
  FuncForPC sampleWorld pcAdd = Some (sampleRFunc symAdd pcAdd sampleSource)
  ∧ ParseFile sampleWorld sampleSource
    = ParsedPartial "sample.go" (foreignError "sample.go:40:1: expected declaration, found '}'")
  ∧ (LookupFromFuncForPC sampleWorld sampleLookup pcAdd).1 !! 2%nat
    = Some (EvCommentofFile true "sample.go").
Proof.
  split; [reflexivity |]. split; [reflexivity |].
  refine (proj2 (proj2 (partial_tree_is_indexed sampleWorld sampleLookup pcAdd
                          (sampleRFunc symAdd pcAdd sampleSource) _)
                   "sample.go" _ _)).
  - reflexivity.
  - reflexivity.
Defined.

Example lookup_Add :
  (LookupFromFuncForPC sampleWorld sampleLookup pcAdd).2
  = Ok {| Func.pc := pcAdd; Func.Raw := addRecord; Func.Recv := "" |}.
Proof. vm_compute. reflexivity. Qed.

Lemma noSlash_pointerRecv (T : string) : noSlash T → noSlash (pointerRecv T).
Proof. unfold noSlash. intros H. by rewrite hasByte_pointerRecv. Qed.

Lemma noDot_pointerRecv (T : string) : noDot T → noDot (pointerRecv T).
Proof. unfold noDot. intros H. by rewrite hasByte_pointerRecv. Qed.

(** C4 (as the code has it). Demangling keeps only the final segment of the
    symbol, after the last path separator.  With a package part [pkg] and a
    local name in that segment, a local name with a further '.' is a
    receiver part and a method name, whether the receiver part is [T] or
    [T] in pointer-receiver markers, which are stripped; a local name
    without one is a function name with an empty receiver. *)
Theorem demangle_segment (dirs : list string) (pkg T name : string) :
  Forall noSlash dirs → noSlash pkg → noDot pkg →
  noSlash T → noDot T → strings.Trim T receiverMarkers = T →
  noSlash name →
  splitSymbol (joinPath dirs (methodSegment pkg (pointerRecv T) name)) = Ok (T, name, true)
  ∧ splitSymbol (joinPath dirs (methodSegment pkg T name)) = Ok (T, name, true)
  ∧ (noDot name →
     splitSymbol (joinPath dirs (funcSegment pkg name)) = Ok ("", name, false)).
Proof.
  intros Hd Hp Hp' HT HT' Htrim Hn. repeat split.
  - rewrite splitSymbol_method
      by auto using noSlash_pointerRecv, noDot_pointerRecv.
    by rewrite Trim_pointerRecv, Htrim.
  - rewrite splitSymbol_method by done. by rewrite Htrim.
  - intros Hn'. by apply splitSymbol_func.
Qed.

Lemma demangle_segment_witness :
  splitSymbol symDescribePtr = Ok ("S", "Describe", true)
  ∧ splitSymbol symDescribeVal = Ok ("S", "Describe", true)
  ∧ splitSymbol (joinPath sampleDirs (funcSegment "metadata" "Describe"))
    = Ok ("", "Describe", false).
Proof.
  assert (Forall noSlash sampleDirs) as Hdirs by (repeat constructor).
  pose proof (demangle_segment sampleDirs "metadata" "S" "Describe" Hdirs
                eq_refl eq_refl eq_refl eq_refl eq_refl eq_refl) as (H1 & H2 & H3).
  split; [exact H1 |]. split; [exact H2 |]. apply H3. reflexivity.
Defined.

(** The symbol of the method value [s.Describe] ends in [-fm].  Demangling
    takes it for the method [Describe-fm] of [S], and the lookup searches
    the method records of [S] for it. *)
Lemma method_value_looked_up_as_method :
  splitSymbol symDescribeFm = Ok ("S", "Describe-fm", true)
  ∧ (LookupFromFuncForPC sampleWorld sampleLookup pcDescribeFm).2
    = Err (methodNotFound symDescribeFm)
  ∧ (LookupFromFuncForPC sampleWorld sampleLookup pcDescribeFm).2
    = selectFunc sampleIndex pcDescribeFm symDescribeFm "S" "Describe-fm" true.
Proof. repeat split. Qed.




Example lookup_Describe_pointer :
  selected (LookupFromFuncForPC sampleWorld sampleLookup pcDescribePtr).2
  = Some (describeRecord, "S").
Proof. vm_compute. reflexivity. Qed.

Example lookup_Describe_value :
  selected (LookupFromFuncForPC sampleWorld sampleLookup pcDescribeVal).2
  = Some (describeRecord, "S").
Proof. vm_compute. reflexivity. Qed.

(** ** The struct lookup *)

Section StructLookup.

Context {AstFile : Type}.
Implicit Types (w : World AstFile) (l : Lookup.t) (rt : ReflectType.t)
  (pkg : Package AstFile) (pkgs : list (Package AstFile)).

Lemma structNotFound_IsNotFound rt : errors.IsNotFound (structNotFound rt) = true.
Proof. reflexivity. Qed.

(** A package that failed to load, or with another path, is passed over. *)
Lemma scanPackages_skip w l rt pkgpath pkg pkgs :
  ¬ candidate pkgpath pkg →
  (scanPackages w l rt pkgpath (pkg :: pkgs)).2 = (scanPackages w l rt pkgpath pkgs).2.
Proof.
  intros Hnot. simpl. unfold strings.eqb.
  destruct (pkgErrors pkg) as [|e es] eqn:Herr; simpl.
  - destruct (String.eqb_spec (pkgPkgPath pkg) pkgpath) as [Heq | Hne]; simpl; [| done].
    by destruct Hnot.
  - by destruct (scanPackages w l rt pkgpath pkgs).
Qed.



Lemma scanPackages_loadRequests w l rt pkgpath pkgs :
  loadRequests (scanPackages w l rt pkgpath pkgs).1 = [].
Proof.
  induction pkgs as [|pkg pkgs IH]; [done |]. simpl.
  destruct (scanPackages w l rt pkgpath pkgs) as [t r]. simpl in IH.
  destruct (0 <? length (pkgErrors pkg))%nat; simpl.
  - unfold loadRequests in *. rewrite omap_app, IH, app_nil_r.
    by induction (pkgErrors pkg).
  - destruct (negb (strings.eqb (pkgPkgPath pkg) pkgpath)); [done |]. simpl.
    destruct (commentofPackage w (Lookup.IncludeUnexported l) (packageTree w pkg))
      as [p |]; [| done].
    by destruct (collect.Package.Types p !! ReflectType.Name rt).
Qed.

(** The struct lookup once the package path is known. *)
Lemma LookupFromStruct_resolved w l rt t pkgpath :
  resolvePkgPath w rt = (t, Ok pkgpath) →
  LookupFromStructForReflectType w l rt =
  match packagesLoad w (loadConfig l) pkgpath with
  | Err err =>
      (t ++ [EvPackagesLoad (loadConfig l) pkgpath],
       Err (wrapError ("packages.Load() " +:+ errors.Error err) err))
  | Ok pkgs =>
      (t ++ EvPackagesLoad (loadConfig l) pkgpath :: (scanPackages w l rt pkgpath pkgs).1,
       (scanPackages w l rt pkgpath pkgs).2)
  end.
Proof.
  intros Hres. unfold LookupFromStructForReflectType. rewrite Hres. simpl.
  destruct (packagesLoad w (loadConfig l) pkgpath) as [pkgs | err]; simpl; [| done].
  by destruct (scanPackages w l rt pkgpath pkgs).
Qed.

Lemma LookupFromStruct_unresolved w l rt t e :
  resolvePkgPath w rt = (t, Err e) →
  LookupFromStructForReflectType w l rt = (t, Err e).
Proof. intros Hres. unfold LookupFromStructForReflectType. by rewrite Hres. Qed.

End StructLookup.

Lemma resolvePkgPath_declared {AstFile : Type} (w : World AstFile) (rt : ReflectType.t) :
  ReflectType.PkgPath rt ≠ "main" → resolvePkgPath w rt = ([], Ok (ReflectType.PkgPath rt)).
Proof.
  intros Hne. unfold resolvePkgPath, strings.eqb.
  by rewrite (proj2 (String.eqb_neq _ _) Hne).
Qed.

Lemma resolvePkgPath_main {AstFile : Type} (w : World AstFile) (rt : ReflectType.t) :
  ReflectType.PkgPath rt = "main" →
  resolvePkgPath w rt =
  match ReadBuildInfo w with
  | None => ([EvReadBuildInfo; EvLog "debug.ReadBuildInfo() is failed"], Err ErrNotFound)
  | Some binfo => ([EvReadBuildInfo], Ok (BuildInfo.Path binfo))
  end.
Proof.
  intros Hmain. unfold resolvePkgPath. rewrite Hmain. simpl.
  by destruct (ReadBuildInfo w).
Qed.




Example lookup_User :
  (LookupFromStructForReflectType sampleWorld sampleLookup userType).2 = Ok userStruct.
Proof. vm_compute. reflexivity. Qed.

(** C6. For a type whose reflected package path is the sentinel ["main"]:
    without build information the lookup fails with [ErrNotFound] itself and
    asks for no package; with build information the one package request is
    for the path of the build information, made right after reading it. *)
Theorem main_sentinel_resolution {AstFile : Type} (w : World AstFile) (l : Lookup.t)
    (rt : ReflectType.t) :
  ReflectType.PkgPath rt = "main" →
  (ReadBuildInfo w = None →
     LookupFromStructForReflectType w l rt
     = ([EvReadBuildInfo; EvLog "debug.ReadBuildInfo() is failed"], Err ErrNotFound)
     ∧ loadRequests (LookupFromStructForReflectType w l rt).1 = [])
  ∧ (∀ binfo, ReadBuildInfo w = Some binfo →
       take 2 (LookupFromStructForReflectType w l rt).1
       = [EvReadBuildInfo; EvPackagesLoad (loadConfig l) (BuildInfo.Path binfo)]
       ∧ loadRequests (LookupFromStructForReflectType w l rt).1 = [BuildInfo.Path binfo]).
Proof.
  intros Hmain. pose proof (resolvePkgPath_main w rt Hmain) as Hres. split.
  - intros Hnone. rewrite Hnone in Hres.
    by rewrite (LookupFromStruct_unresolved _ _ _ _ _ Hres).
  - intros binfo Hsome. rewrite Hsome in Hres.
    rewrite (LookupFromStruct_resolved _ _ _ _ _ Hres).
    destruct (packagesLoad w (loadConfig l) (BuildInfo.Path binfo)) as [pkgs | err];
      [| done].
    split; [done |]. simpl.
    change (BuildInfo.Path binfo
            :: loadRequests (scanPackages w l rt (BuildInfo.Path binfo) pkgs).1
            = [BuildInfo.Path binfo]).
    by rewrite scanPackages_loadRequests.
Qed.

Lemma main_sentinel_resolution_witness :
  LookupFromStructForReflectType (withoutBuildInfo sampleWorld) sampleLookup mainUserType
  = ([EvReadBuildInfo; EvLog "debug.ReadBuildInfo() is failed"], Err ErrNotFound)
  ∧ loadRequests (LookupFromStructForReflectType sampleWorld sampleLookup mainUserType).1
    = [samplePath].
Proof.
  split.
  - refine (proj1 (proj1 (main_sentinel_resolution (withoutBuildInfo sampleWorld)
                            sampleLookup mainUserType _) _)); reflexivity.
  - refine (proj2 (proj2 (main_sentinel_resolution sampleWorld sampleLookup mainUserType _)
                     {| BuildInfo.Path := samplePath |} _)); reflexivity.
Defined.

Example lookup_main_User :
  (LookupFromStructForReflectType sampleWorld sampleLookup mainUserType).2 = Ok userStruct.
Proof. vm_compute. reflexivity. Qed.

(** ** [Config.Extract] *)

(** C9. When [Extract] constructs the lookup (none yet, comments not
    skipped) the lookup it stores, and hands to a newly made extractor, has
    [IncludeUnexported] set, whatever the fields of the configuration and
    the value of the package variable [DocTruncationSize] are, and takes
    [IncludeGoTestFiles] from the configuration; [NewLookup] itself leaves
    [IncludeUnexported] unset. *)
Theorem Extract_includes_unexported {ID : Type} `{Countable ID}
    {Shape ShapePackage : Type} (d : Z) (c : @Config ID _ _ Shape ShapePackage) :
  cfgLookup c = None →
  cfgSkipComments c = false →
  (∃ l, cfgLookup (Config_setup d c) = Some l
        ∧ Lookup.IncludeUnexported l = true
        ∧ Lookup.IncludeGoTestFiles l = cfgIncludeGoTestFiles c
        ∧ (cfgExtractor c = None →
           exLookup <$> cfgExtractor (Config_setup d c) = Some (Some l)))
  ∧ ∀ fset, Lookup.IncludeUnexported (NewLookup fset) = false.
Proof.
  intros Hlookup Hskip. split; [| done].
  exists (extractLookup c). unfold Config_setup.
  destruct (cfgDocTruncationSize c =? 0); simpl;
    rewrite Hlookup, Hskip; simpl;
    (destruct (cfgExtractor c) as [e |] eqn:He; simpl; [by repeat split |]);
    repeat split; done.
Qed.

Lemma Extract_includes_unexported_witness :
  ∃ l, cfgLookup (Config_setup DocTruncationSize freshConfig) = Some l
       ∧ Lookup.IncludeUnexported l = true
       ∧ Lookup.IncludeGoTestFiles l = true
       ∧ (cfgExtractor freshConfig = None →
          exLookup <$> cfgExtractor (Config_setup DocTruncationSize freshConfig)
          = Some (Some l)).
Proof.
  exact (proj1 (Extract_includes_unexported DocTruncationSize freshConfig eq_refl eq_refl)).
Defined.

Example Extract_freshConfig :
  cfgDocTruncationSize (Config_setup DocTruncationSize freshConfig) = 10
  ∧ cfgLookup (Config_setup DocTruncationSize freshConfig)
    = Some {| Lookup.Fset := NewFileSet; Lookup.accessor := Accessor.New;
              Lookup.IncludeGoTestFiles := true; Lookup.IncludeUnexported := true |}.
Proof. split; reflexivity. Qed.

(** ** Sample evaluations of the string functions *)

Example Split_symbol :
  strings.Split symDescribeVal "/"
  = ["github.com"; "podhmo"; "reflect-shape"; "metadata.S.Describe"].
Proof. reflexivity. Qed.

Example Split_empty : strings.Split "" "/" = [""].
Proof. reflexivity. Qed.

Example Cut_segment : strings.Cut "metadata.S.Describe" "." = ("metadata", "S.Describe", true).
Proof. reflexivity. Qed.

Example Cut_absent : strings.Cut "Describe" "." = ("Describe", "", false).
Proof. reflexivity. Qed.

Example Trim_pointer_receiver : strings.Trim (pointerRecv "S") receiverMarkers = "S".
Proof. reflexivity. Qed.

Example TrimSpace_ascii :
  strings.TrimSpace (String (ascii_of_nat 9) (" a b " +:+ String (ascii_of_nat 10) "")) = "a b".
Proof. reflexivity. Qed.

Example TrimSpace_no_break_space :
  strings.TrimSpace (String (ascii_of_nat 194) (String (ascii_of_nat 160) "x")) = "x".
Proof. reflexivity. Qed.

Example TrimSpace_ideographic_space :
  strings.TrimSpace
    ("x" +:+ String (ascii_of_nat 227) (String (ascii_of_nat 128) (String (ascii_of_nat 128) "")))
  = "x".
Proof. reflexivity. Qed.

(** * Further properties of the code *)

(** ** Strings, continued *)

Section MoreStringFacts.

Import strings.

Lemma string_ind3 (P : string → Prop) :
  P "" →
  (∀ a, P (String a "")) →
  (∀ a b, P (String a (String b ""))) →
  (∀ a b c r, P r → P (String c r) → P (String b (String c r)) →
              P (String a (String b (String c r)))) →
  ∀ s, P s.
Proof.
  intros H0 H1 H2 H3 s.
  assert (P s ∧ (∀ c, P (String c s)) ∧ (∀ b c, P (String b (String c s)))) as [H _].
  { induction s as [|x s (IH1 & IH2 & IH3)]; [by auto |].
    split; [apply IH2 |]. split; [intros c; apply IH3 |].
    intros b c. apply H3; auto. }
  exact H.
Qed.

Lemma trimLeftSpace_fix (s : string) :
  startsWithSpace s = false → trimLeftSpace s = s.
Proof.
  destruct s as [|a [|b [|c r]]]; simpl; [done | | |].
  - rewrite orb_false_r. by intros ->.
  - rewrite orb_false_r. intros [-> ->]%orb_false_elim. done.
  - intros [-> [-> ->]%orb_false_elim]%orb_false_elim. done.
Qed.

Lemma trimLeftSpace_trimmed (s : string) :
  startsWithSpace (trimLeftSpace s) = false.
Proof.
  induction s as [| a | a b | a b c r IH1 IH2 IH3] using string_ind3.
  - done.
  - simpl. destruct (asciiSpace a) eqn:Ha; [done |]. simpl. by rewrite Ha.
  - simpl. destruct (asciiSpace a) eqn:Ha.
    + destruct (asciiSpace b) eqn:Hb; [done |]. simpl. by rewrite Hb.
    + destruct (space2 a b) eqn:Hab; [done |]. simpl. by rewrite Ha, Hab.
  - change (trimLeftSpace (String a (String b (String c r))))
      with (if asciiSpace a then trimLeftSpace (String b (String c r))
            else if space2 a b then trimLeftSpace (String c r)
            else if space3 a b c then trimLeftSpace r
            else String a (String b (String c r))).
    destruct (asciiSpace a) eqn:Ha; [done |].
    destruct (space2 a b) eqn:Hab; [done |].
    destruct (space3 a b c) eqn:Habc; [done |].
    simpl. by rewrite Ha, Hab, Habc.
Qed.

Lemma trimLeftSpaceRev_fix (s : string) :
  startsWithSpaceRev s = false → trimLeftSpaceRev s = s.
Proof.
  destruct s as [|a [|b [|c r]]]; simpl; [done | | |].
  - rewrite orb_false_r. by intros ->.
  - rewrite orb_false_r. intros [-> ->]%orb_false_elim. done.
  - intros [-> [-> ->]%orb_false_elim]%orb_false_elim. done.
Qed.

Lemma trimLeftSpaceRev_trimmed (s : string) :
  startsWithSpaceRev (trimLeftSpaceRev s) = false.
Proof.
  induction s as [| a | a b | a b c r IH1 IH2 IH3] using string_ind3.
  - done.
  - simpl. destruct (asciiSpace a) eqn:Ha; [done |]. simpl. by rewrite Ha.
  - simpl. destruct (asciiSpace a) eqn:Ha.
    + destruct (asciiSpace b) eqn:Hb; [done |]. simpl. by rewrite Hb.
    + destruct (space2 b a) eqn:Hab; [done |]. simpl. by rewrite Ha, Hab.
  - change (trimLeftSpaceRev (String a (String b (String c r))))
      with (if asciiSpace a then trimLeftSpaceRev (String b (String c r))
            else if space2 b a then trimLeftSpaceRev (String c r)
            else if space3 c b a then trimLeftSpaceRev r
            else String a (String b (String c r))).
    destruct (asciiSpace a) eqn:Ha; [done |].
    destruct (space2 b a) eqn:Hab; [done |].
    destruct (space3 c b a) eqn:Habc; [done |].
    simpl. by rewrite Ha, Hab, Habc.
Qed.

(** What the right trim keeps is a suffix of the reversed string. *)
Lemma trimLeftSpaceRev_suffix (s : string) :
  ∃ p, s = p +:+ trimLeftSpaceRev s.
Proof.
  induction s as [| a | a b | a b c r IH1 IH2 IH3] using string_ind3.
  - by exists "".
  - simpl. destruct (asciiSpace a); [by exists (String a "") | by exists ""].
  - simpl. destruct (asciiSpace a).
    + destruct (asciiSpace b); [by exists (String a (String b "")) | by exists (String a "")].
    + destruct (space2 b a); [by exists (String a (String b "")) | by exists ""].
  - change (trimLeftSpaceRev (String a (String b (String c r))))
      with (if asciiSpace a then trimLeftSpaceRev (String b (String c r))
            else if space2 b a then trimLeftSpaceRev (String c r)
            else if space3 c b a then trimLeftSpaceRev r
            else String a (String b (String c r))).
    destruct (asciiSpace a).
    { destruct IH3 as [p Hp]. exists (String a p). by rewrite append_cons, <- Hp. }
    destruct (space2 b a).
    { destruct IH2 as [p Hp]. exists (String a (String b p)).
      by rewrite !append_cons, <- Hp. }
    destruct (space3 c b a).
    { destruct IH1 as [p Hp]. exists (String a (String b (String c p))).
      by rewrite !append_cons, <- Hp. }
    by exists "".
Qed.

(** A prefix of a string that begins with no white space begins with
    none. *)
Lemma startsWithSpace_prefix (x y : string) :
  startsWithSpace (x +:+ y) = false → startsWithSpace x = false.
Proof.
  destruct x as [|a [|b [|c r]]]; [done | | |]; rewrite ?append_cons, ?append_nil_l.
  - simpl. intros [-> _]%orb_false_elim. done.
  - simpl. intros [-> [-> _]%orb_false_elim]%orb_false_elim. done.
  - simpl. by intros [-> [-> ->]%orb_false_elim]%orb_false_elim.
Qed.

Lemma TrimSpace_startsWithSpace (s : string) :
  startsWithSpace (TrimSpace s) = false.
Proof.
  unfold TrimSpace.
  destruct (trimLeftSpaceRev_suffix (rev (trimLeftSpace s))) as [p Hp].
  apply (startsWithSpace_prefix _ (rev p)).
  rewrite <- rev_app, <- Hp, rev_involutive.
  apply trimLeftSpace_trimmed.
Qed.

Lemma TrimSpace_idempotent (s : string) : TrimSpace (TrimSpace s) = TrimSpace s.
Proof.
  unfold TrimSpace at 1.
  rewrite (trimLeftSpace_fix _ (TrimSpace_startsWithSpace s)).
  unfold TrimSpace. rewrite rev_involutive.
  by rewrite (trimLeftSpaceRev_fix _ (trimLeftSpaceRev_trimmed _)).
Qed.

Lemma TrimSpace_endsWithSpace (s : string) :
  startsWithSpaceRev (rev (TrimSpace s)) = false.
Proof. unfold TrimSpace. rewrite rev_involutive. apply trimLeftSpaceRev_trimmed. Qed.

End MoreStringFacts.

(** ** Accessors of the function and struct records *)

Lemma fillNames_mapM (fields : gmap string collect.Field.t) (ids : list string) :
  ∀ (i : nat) (acc : list string),
    length acc = (i + length ids)%nat →
    fillNames fields ids i acc
    = (fun names => take i acc ++ names) <$> mapM (nameOfId fields) ids.
Proof.
  induction ids as [|id ids IH]; intros i acc Hlen; simpl in *.
  - rewrite take_ge by lia. by rewrite app_nil_r.
  - assert (nameOfId fields id = collect.Field.Name <$> fields !! id) as -> by done.
    destruct (fields !! id) as [f |] eqn:Hf; simpl; [| done].
    rewrite IH by (rewrite length_insert; lia).
    destruct (mapM (nameOfId fields) ids) as [names |]; simpl; [| done].
    f_equal.
    rewrite (take_S_r _ _ (collect.Field.Name f)) by (apply list_lookup_insert_eq; lia).
    rewrite take_insert_ge by lia.
    by rewrite <- app_assoc.
Qed.

Lemma fieldNames_mapM (fields : gmap string collect.Field.t) (ids : list string) :
  fieldNames fields ids = mapM (nameOfId fields) ids.
Proof.
  unfold fieldNames.
  rewrite fillNames_mapM by (rewrite length_replicate; lia).
  by destruct (mapM (nameOfId fields) ids).
Qed.

(** X1. The indexed stores of [Args()] and [Returns()] amount to mapping
    each listed id to the name of its record, in order: entry [i] of the
    result is the name of the record of id [i]. *)
Theorem Args_Returns_map (m : Func.t) :
  Func_Args m
  = mapM (nameOfId (collect.Func.Params (Func.Raw m))) (collect.Func.ParamNames (Func.Raw m))
  ∧ Func_Returns m
    = mapM (nameOfId (collect.Func.Returns (Func.Raw m))) (collect.Func.ReturnNames (Func.Raw m)).
Proof. split; apply fieldNames_mapM. Qed.

Lemma fieldNames_None (fields : gmap string collect.Field.t) (ids : list string) :
  fieldNames fields ids = None ↔ ∃ id, id ∈ ids ∧ fields !! id = None.
Proof.
  rewrite fieldNames_mapM, mapM_None, Exists_exists. unfold nameOfId.
  split; intros (id & Hin & Hnone); exists id; (split; [done |]).
  - by destruct (fields !! id).
  - by rewrite Hnone.
Qed.

(** X2. [Args()] panics exactly when some id of [ParamNames] has no entry
    in [Params] (the nil record is dereferenced); otherwise it returns one
    name per id.  The same holds for [Returns()]. *)
Theorem Args_Returns_panic_iff_missing (m : Func.t) :
  (Func_Args m = None
   ↔ ∃ id, id ∈ collect.Func.ParamNames (Func.Raw m)
           ∧ collect.Func.Params (Func.Raw m) !! id = None)
  ∧ (Func_Returns m = None
     ↔ ∃ id, id ∈ collect.Func.ReturnNames (Func.Raw m)
             ∧ collect.Func.Returns (Func.Raw m) !! id = None)
  ∧ (∀ names, Func_Args m = Some names →
       length names = length (collect.Func.ParamNames (Func.Raw m)))
  ∧ (∀ names, Func_Returns m = Some names →
       length names = length (collect.Func.ReturnNames (Func.Raw m))).
Proof.
  split; [apply fieldNames_None |]. split; [apply fieldNames_None |].
  split; intros names; apply fieldNames_length.
Qed.

Lemma docOrComment_trimmed (doc comment : string) :
  strings.TrimSpace (docOrComment doc comment) = docOrComment doc comment.
Proof. unfold docOrComment. apply TrimSpace_idempotent. Qed.

(** X3. The texts the accessors return are trimmed for good: trimming
    [Func.Doc()], [Struct.Doc()] or a value of [Struct.FieldComments()] once
    more changes nothing, and none of them begins with a white-space rune or
    ends with one. *)
Theorem Doc_texts_are_trimmed (m : Func.t) (s : Struct.t) :
  (strings.TrimSpace (Func_Doc m) = Func_Doc m
   ∧ startsWithSpace (Func_Doc m) = false
   ∧ startsWithSpaceRev (strings.rev (Func_Doc m)) = false)
  ∧ (strings.TrimSpace (Struct_Doc s) = Struct_Doc s
     ∧ startsWithSpace (Struct_Doc s) = false
     ∧ startsWithSpaceRev (strings.rev (Struct_Doc s)) = false)
  ∧ ∀ k v, Struct_FieldComments s !! k = Some v →
      strings.TrimSpace v = v
      ∧ startsWithSpace v = false
      ∧ startsWithSpaceRev (strings.rev v) = false.
Proof.
  split; [| split].
  - unfold Func_Doc.
    auto using TrimSpace_idempotent, TrimSpace_startsWithSpace, TrimSpace_endsWithSpace.
  - unfold Struct_Doc, docOrComment.
    auto using TrimSpace_idempotent, TrimSpace_startsWithSpace, TrimSpace_endsWithSpace.
  - intros k v. unfold Struct_FieldComments. rewrite FieldComments_foldl.
    destruct (last _) as [f |]; simpl; [| done].
    intros [= <-]. unfold fieldComment.
    rewrite <- docOrComment_selectComment. unfold docOrComment.
    auto using TrimSpace_idempotent, TrimSpace_startsWithSpace, TrimSpace_endsWithSpace.
Qed.

Lemma Doc_texts_are_trimmed_witness :
  strings.TrimSpace "name of User." = "name of User."
  ∧ startsWithSpace "name of User." = false
  ∧ startsWithSpaceRev (strings.rev "name of User.") = false.
Proof.
  refine (proj2 (proj2 (Doc_texts_are_trimmed addFunc userStruct)) "Name" _ _).
  vm_compute. reflexivity.
Defined.

Lemma FieldComments_dom_foldl (fields : list collect.Field.t) :
  dom (foldl (fun comments f =>
                <[collect.Field.Name f :=
                    docOrComment (collect.Field.Doc f) (collect.Field.Comment f)]> comments)
             (∅ : gmap string string) fields)
  = list_to_set (collect.Field.Name <$> fields).
Proof.
  induction fields as [|f fields IH] using rev_ind; [apply dom_empty_L |].
  rewrite foldl_snoc, dom_insert_L, IH, fmap_app, list_to_set_app_L. simpl.
  rewrite (right_id_L ∅ (∪)). apply (comm_L (∪)).
Qed.

Lemma FieldComments_size_foldl (fields : list collect.Field.t) :
  (size (foldl (fun comments f =>
                  <[collect.Field.Name f :=
                      docOrComment (collect.Field.Doc f) (collect.Field.Comment f)]> comments)
               (∅ : gmap string string) fields)
   ≤ length fields)%nat.
Proof.
  induction fields as [|f fields IH] using rev_ind; [done |].
  rewrite foldl_snoc, length_app, map_size_insert.
  destruct (_ !! _); unfold id; simpl; lia.
Qed.

(** X4. The keys of [Struct.FieldComments()] are exactly the names of the
    fields: every field name has an entry, no other key has one, and the map
    is never larger than the list of fields. *)
Theorem FieldComments_keys (s : Struct.t) :
  dom (Struct_FieldComments s)
  = list_to_set (collect.Field.Name <$> collect.Object.Fields (Struct.Raw s))
  ∧ (∀ k, is_Some (Struct_FieldComments s !! k)
          ↔ ∃ f, f ∈ collect.Object.Fields (Struct.Raw s) ∧ collect.Field.Name f = k)
  ∧ (size (Struct_FieldComments s) ≤ length (collect.Object.Fields (Struct.Raw s)))%nat.
Proof.
  pose proof (FieldComments_dom_foldl (collect.Object.Fields (Struct.Raw s))) as Hdom.
  fold (Struct_FieldComments s) in Hdom.
  split; [done |]. split.
  - intros k. rewrite <- elem_of_dom, Hdom, elem_of_list_to_set, list_elem_of_fmap.
    split; intros (f & H1 & H2); exists f; by split.
  - apply FieldComments_size_foldl.
Qed.

(** ** Trimming receiver markers *)

Section TrimFacts.

Import strings.

Variable f : ascii → bool.

Lemma trimLeftBytes_fix (s : string) : startsIn f s = false → trimLeftBytes f s = s.
Proof. destruct s as [|c s]; simpl; [done |]. by intros ->. Qed.

Lemma trimLeftBytes_trimmed (s : string) : startsIn f (trimLeftBytes f s) = false.
Proof.
  induction s as [|c s IH]; simpl; [done |].
  destruct (f c) eqn:Hc; [done |]. simpl. by rewrite Hc.
Qed.

Lemma trimLeftBytes_suffix (s : string) : ∃ p, s = p +:+ trimLeftBytes f s.
Proof.
  induction s as [|c s [p Hp]]; simpl; [by exists "" |].
  destruct (f c); [| by exists ""].
  exists (String c p). by rewrite append_cons, <- Hp.
Qed.

Lemma startsIn_prefix (x y : string) :
  x ≠ "" → startsIn f (x +:+ y) = false → startsIn f x = false.
Proof. destruct x as [|c x]; [done |]. by rewrite append_cons. Qed.

Lemma trimRightBytes_trimmed (s : string) :
  startsIn f (rev (trimRightBytes f s)) = false.
Proof. unfold trimRightBytes. rewrite rev_involutive. apply trimLeftBytes_trimmed. Qed.

Lemma rev_empty_inv (s : string) : rev s = "" → s = "".
Proof. intros H. by rewrite <- (rev_involutive s), H. Qed.

(** Trimming both ends is idempotent. *)
Lemma trim_both_idempotent (s : string) :
  let t := trimLeftBytes f (trimRightBytes f s) in
  trimLeftBytes f (trimRightBytes f t) = t.
Proof.
  intros t.
  assert (trimRightBytes f t = t) as ->.
  { unfold trimRightBytes at 1. rewrite <- (rev_involutive t) at 2. f_equal.
    apply trimLeftBytes_fix.
    destruct (decide (rev t = "")) as [-> | Hne]; [done |].
    destruct (trimLeftBytes_suffix (trimRightBytes f s)) as [p Hp]. fold t in Hp.
    apply (startsIn_prefix _ (rev p)); [done |].
    rewrite <- rev_app, <- Hp. apply trimRightBytes_trimmed. }
  apply trimLeftBytes_fix. apply trimLeftBytes_trimmed.
Qed.

End TrimFacts.

Lemma Trim_idempotent (s cutset : string) :
  strings.Trim (strings.Trim s cutset) cutset = strings.Trim s cutset.
Proof. apply trim_both_idempotent. Qed.

(** ** The function lookup, continued *)

Section FunctionLookup.

Context {AstFile : Type}.
Implicit Types (w : World AstFile) (l : Lookup.t).

(** The stages of the function lookup. *)
Lemma LookupFromFuncForPC_stages w l pc :
  (FuncForPC w pc = None
   ∧ LookupFromFuncForPC w l pc = ([EvFuncForPC pc], Err errNotResolvable))
  ∨ (∃ rfunc err,
       FuncForPC w pc = Some rfunc
       ∧ ParseFile w (sourceFile rfunc) = ParseFailed err
       ∧ LookupFromFuncForPC w l pc
         = ([EvFuncForPC pc; EvParseFile (sourceFile rfunc)], Err err))
  ∨ (∃ rfunc f,
       FuncForPC w pc = Some rfunc
       ∧ parseTree (ParseFile w (sourceFile rfunc)) = Some f
       ∧ LookupFromFuncForPC w l pc
         = ([EvFuncForPC pc; EvParseFile (sourceFile rfunc);
             EvCommentofFile (Lookup.IncludeUnexported l) f],
            match commentofFile w (Lookup.IncludeUnexported l) f with
            | Err e => Err e
            | Ok p =>
                match splitSymbol (RFunc.Name rfunc) with
                | Ok (recv, name, isMethod) =>
                    selectFunc p pc (RFunc.Name rfunc) recv name isMethod
                | Err e => Err e
                end
            end)).
Proof.
  destruct (FuncForPC w pc) as [rfunc |] eqn:Hpc.
  - right. destruct (ParseFile w (sourceFile rfunc)) as [f | f err | err] eqn:Hparse.
    + right. exists rfunc, f. split; [done |]. split; [by rewrite ?Hparse |].
      apply LookupFromFuncForPC_tree; [done | by rewrite Hparse].
    + right. exists rfunc, f. split; [done |]. split; [by rewrite ?Hparse |].
      apply LookupFromFuncForPC_tree; [done | by rewrite Hparse].
    + left. exists rfunc, err. split; [done |]. split; [done |].
      by apply LookupFromFuncForPC_parse_failed.
  - left. split; [done |]. unfold LookupFromFuncForPC. by rewrite Hpc.
Qed.

Lemma selectFunc_Ok (p : collect.Package.t) (pc : Z) (fullname recv name : string)
    (isMethod : bool) (m : Func.t) :
  selectFunc p pc fullname recv name isMethod = Ok m →
  Func.pc m = pc
  ∧ if isMethod
    then Func.Recv m = recv
         ∧ ∃ ob, collect.Package.Types p !! recv = Some ob
                 ∧ collect.Object.Methods ob !! name = Some (Func.Raw m)
    else Func.Recv m = ""
         ∧ collect.Package.Functions p !! name = Some (Func.Raw m).
Proof.
  unfold selectFunc. destruct isMethod.
  - destruct (collect.Package.Types p !! recv) as [ob |] eqn:Hob; [| done].
    destruct (collect.Object.Methods ob !! name) as [r |] eqn:Hr; [| done].
    intros [= <-]. simpl. eauto.
  - destruct (collect.Package.Functions p !! name) as [r |] eqn:Hr; [| done].
    by intros [= <-].
Qed.

Lemma splitSymbol_recv_trimmed (fullname recv name : string) (isMethod : bool) :
  splitSymbol fullname = Ok (recv, name, isMethod) →
  strings.Trim recv receiverMarkers = recv.
Proof.
  unfold splitSymbol.
  destruct (strings.Cut _ ".") as [[pkgname rest] isFunc].
  destruct isFunc; simpl; [| done].
  destruct (strings.Cut rest ".") as [[r n] found].
  destruct found; intros [= <- <- <-]; [apply Trim_idempotent | done].
Qed.

Lemma splitSymbol_function_recv (fullname recv name : string) :
  splitSymbol fullname = Ok (recv, name, false) → recv = "".
Proof.
  unfold splitSymbol.
  destruct (strings.Cut _ ".") as [[pkgname rest] isFunc].
  destruct isFunc; simpl; [| done].
  destruct (strings.Cut rest ".") as [[r n] found].
  destruct found; by intros [= <- <-].
Qed.

(** X5. A record the function lookup returns carries the address that was
    asked for, and it is the record the index of the owning file holds
    under the demangled names: for a method symbol the method of that name
    of the type named by the receiver, for a function symbol the function of
    that name, with an empty receiver. *)
Theorem function_lookup_sound w l pc (m : Func.t) :
  (LookupFromFuncForPC w l pc).2 = Ok m →
  ∃ rfunc f p name isMethod,
    FuncForPC w pc = Some rfunc
    ∧ parseTree (ParseFile w (sourceFile rfunc)) = Some f
    ∧ commentofFile w (Lookup.IncludeUnexported l) f = Ok p
    ∧ splitSymbol (RFunc.Name rfunc) = Ok (Func.Recv m, name, isMethod)
    ∧ Func.pc m = pc
    ∧ if isMethod
      then ∃ ob, collect.Package.Types p !! Func.Recv m = Some ob
                 ∧ collect.Object.Methods ob !! name = Some (Func.Raw m)
      else Func.Recv m = ""
           ∧ collect.Package.Functions p !! name = Some (Func.Raw m).
Proof.
  intros Hm.
  destruct (LookupFromFuncForPC_stages w l pc)
    as [[_ H] | [(rfunc & err & _ & _ & H) | (rfunc & f & Hpc & Hparse & H)]];
    rewrite H in Hm; simpl in Hm; [done | done |].
  destruct (commentofFile w (Lookup.IncludeUnexported l) f) as [p |] eqn:Hindex; [| done].
  destruct (splitSymbol (RFunc.Name rfunc)) as [[[recv name] isMethod] |] eqn:Hsplit;
    [| done].
  destruct (selectFunc_Ok _ _ _ _ _ _ _ Hm) as [Hpc' Hsel].
  exists rfunc, f, p, name, isMethod.
  destruct isMethod.
  - destruct Hsel as [-> Hsel]. by repeat split.
  - destruct Hsel as [Hrecv Hsel]. repeat split; try done.
    by rewrite Hrecv, <- (splitSymbol_function_recv _ _ _ Hsplit).
Qed.

(** X6. The receiver name of a returned record never begins or ends with a
    receiver marker (parenthesis or star): trimming it again changes
    nothing. *)
Theorem returned_receiver_has_no_markers w l pc (m : Func.t) :
  (LookupFromFuncForPC w l pc).2 = Ok m →
  strings.Trim (Func.Recv m) receiverMarkers = Func.Recv m
  ∧ startsIn (strings.inCutset receiverMarkers) (Func.Recv m) = false
  ∧ startsIn (strings.inCutset receiverMarkers) (strings.rev (Func.Recv m)) = false.
Proof.
  intros Hm.
  destruct (LookupFromFuncForPC_stages w l pc)
    as [[_ H] | [(rfunc & err & _ & _ & H) | (rfunc & f & Hpc & Hparse & H)]];
    rewrite H in Hm; simpl in Hm; [done | done |].
  destruct (commentofFile w (Lookup.IncludeUnexported l) f) as [p |]; [| done].
  destruct (splitSymbol (RFunc.Name rfunc)) as [[[recv name] isMethod] |] eqn:Hsplit;
    [| done].
  pose proof (splitSymbol_recv_trimmed _ _ _ _ Hsplit) as Htrim.
  assert (Func.Recv m = recv) as ->.
  { destruct (selectFunc_Ok _ _ _ _ _ _ _ Hm) as [_ Hsel].
    destruct isMethod; [by destruct Hsel |].
    destruct Hsel as [-> _]. by rewrite (splitSymbol_function_recv _ _ _ Hsplit). }
  split; [done |]. rewrite <- Htrim. unfold strings.Trim. split.
  - apply trimLeftBytes_trimmed.
  - change (strings.trimLeftBytes _ (strings.trimRightBytes _ recv))
      with (strings.Trim recv receiverMarkers).
    rewrite Htrim, <- Htrim. unfold strings.Trim.
    pose proof (trim_both_idempotent (strings.inCutset receiverMarkers) recv) as Hid.
    simpl in Hid.
    destruct (decide (strings.rev (strings.Trim recv receiverMarkers) = "")) as [He | Hne].
    { unfold strings.Trim in He. by rewrite He. }
    destruct (trimLeftBytes_suffix (strings.inCutset receiverMarkers)
                (strings.trimRightBytes (strings.inCutset receiverMarkers) recv))
      as [q Hq].
    apply (startsIn_prefix _ _ (strings.rev q)); [done |].
    rewrite <- rev_app, <- Hq. apply trimRightBytes_trimmed.
Qed.

End FunctionLookup.

Lemma function_lookup_sound_witness :
  ∃ rfunc f p name isMethod,
    FuncForPC sampleWorld pcDescribePtr = Some rfunc
    ∧ parseTree (ParseFile sampleWorld (sourceFile rfunc)) = Some f
    ∧ commentofFile sampleWorld (Lookup.IncludeUnexported sampleLookup) f = Ok p
    ∧ splitSymbol (RFunc.Name rfunc) = Ok (Func.Recv describeFunc, name, isMethod)
    ∧ Func.pc describeFunc = pcDescribePtr
    ∧ if isMethod
      then ∃ ob, collect.Package.Types p !! Func.Recv describeFunc = Some ob
                 ∧ collect.Object.Methods ob !! name = Some (Func.Raw describeFunc)
      else Func.Recv describeFunc = ""
           ∧ collect.Package.Functions p !! name = Some (Func.Raw describeFunc).
Proof.
  apply (function_lookup_sound sampleWorld sampleLookup pcDescribePtr describeFunc).
  vm_compute. reflexivity.
Defined.

Lemma returned_receiver_has_no_markers_witness :
  strings.Trim (Func.Recv describeFunc) receiverMarkers = Func.Recv describeFunc
  ∧ startsIn (strings.inCutset receiverMarkers) (Func.Recv describeFunc) = false
  ∧ startsIn (strings.inCutset receiverMarkers) (strings.rev (Func.Recv describeFunc)) = false.
Proof.
  apply (returned_receiver_has_no_markers sampleWorld sampleLookup pcDescribePtr describeFunc).
  vm_compute. reflexivity.
Defined.

(** X7. The failures of the function lookup, stage by stage: no symbol
    table entry; the parser's own error when it returns no tree; the
    indexer's own error; the error for a symbol that does not split; or an
    error that wraps [ErrNotFound] for a symbol that splits and has no
    record.  The parser's and the indexer's errors are passed on as they
    are, not wrapped. *)
Theorem function_lookup_failures {AstFile : Type} (w : World AstFile) (l : Lookup.t)
    (pc : Z) (e : error) :
  (LookupFromFuncForPC w l pc).2 = Err e →
  (FuncForPC w pc = None ∧ e = errNotResolvable)
  ∨ ∃ rfunc, FuncForPC w pc = Some rfunc
      ∧ (ParseFile w (sourceFile rfunc) = ParseFailed e
         ∨ ∃ f, parseTree (ParseFile w (sourceFile rfunc)) = Some f
             ∧ (commentofFile w (Lookup.IncludeUnexported l) f = Err e
                ∨ (∃ p, commentofFile w (Lookup.IncludeUnexported l) f = Ok p)
                  ∧ (e = errUnexpectedSymbolForm (RFunc.Name rfunc)
                     ∨ (errors.IsNotFound e = true
                        ∧ (e = methodNotFound (RFunc.Name rfunc)
                           ∨ e = functionNotFound (RFunc.Name rfunc)))))).
Proof.
  intros He.
  destruct (LookupFromFuncForPC_stages w l pc)
    as [[Hpc H] | [(rfunc & err & Hpc & Hparse & H) | (rfunc & f & Hpc & Hparse & H)]];
    rewrite H in He; simpl in He.
  - left. split; [done |]. by simplify_eq.
  - right. exists rfunc. split; [done |]. left. by simplify_eq.
  - right. exists rfunc. split; [done |]. right. exists f. split; [done |].
    destruct (commentofFile w (Lookup.IncludeUnexported l) f) as [p | e'] eqn:Hindex.
    + right. split; [by exists p |].
      unfold splitSymbol in He.
      destruct (strings.Cut _ ".") as [[pkgname rest] isFunc].
      destruct isFunc; simpl in He; [| left; by simplify_eq].
      right.
      destruct (strings.Cut rest ".") as [[r n] found].
      unfold selectFunc in He. destruct found.
      * destruct (collect.Package.Types p !! _) as [ob |];
          [destruct (collect.Object.Methods ob !! n) |]; simplify_eq; auto.
      * destruct (collect.Package.Functions p !! r); simplify_eq; auto.
    + left. by simplify_eq.
Qed.

Lemma function_lookup_failures_witness :
  ∃ rfunc, FuncForPC sampleWorld pcDescribeFm = Some rfunc
    ∧ (ParseFile sampleWorld (sourceFile rfunc) = ParseFailed (methodNotFound symDescribeFm)
       ∨ ∃ f, parseTree (ParseFile sampleWorld (sourceFile rfunc)) = Some f
           ∧ (commentofFile sampleWorld (Lookup.IncludeUnexported sampleLookup) f
              = Err (methodNotFound symDescribeFm)
              ∨ (∃ p, commentofFile sampleWorld (Lookup.IncludeUnexported sampleLookup) f
                      = Ok p)
                ∧ (methodNotFound symDescribeFm = errUnexpectedSymbolForm (RFunc.Name rfunc)
                   ∨ (errors.IsNotFound (methodNotFound symDescribeFm) = true
                      ∧ (methodNotFound symDescribeFm = methodNotFound (RFunc.Name rfunc)
                         ∨ methodNotFound symDescribeFm
                           = functionNotFound (RFunc.Name rfunc)))))).
Proof.
  destruct (function_lookup_failures sampleWorld sampleLookup pcDescribeFm
              (methodNotFound symDescribeFm)) as [[H _] | H].
  - vm_compute. reflexivity.
  - vm_compute in H. discriminate H.
  - exact H.
Defined.

Section SymbolLookup.

Context {AstFile : Type}.
Implicit Types (w : World AstFile) (l : Lookup.t).

(** X8. For a function symbol [dir/pkg.name] whose file has been indexed,
    the lookup is decided by the functions of the index alone: the record
    [Functions[name]] with an empty receiver, or the NotFound error for a
    function.  The types of the index and their methods play no part. *)
Theorem function_symbol_lookup w l pc rfunc f p (dirs : list string) (pkg name : string) :
  FuncForPC w pc = Some rfunc →
  parseTree (ParseFile w (sourceFile rfunc)) = Some f →
  commentofFile w (Lookup.IncludeUnexported l) f = Ok p →
  RFunc.Name rfunc = joinPath dirs (funcSegment pkg name) →
  Forall noSlash dirs → noSlash pkg → noDot pkg → noSlash name → noDot name →
  (LookupFromFuncForPC w l pc).2
  = match collect.Package.Functions p !! name with
    | Some r => Ok {| Func.pc := pc; Func.Raw := r; Func.Recv := "" |}
    | None => Err (functionNotFound (RFunc.Name rfunc))
    end.
Proof.
  intros Hpc Hparse Hindex Hname Hd Hp Hp' Hn Hn'.
  rewrite (LookupFromFuncForPC_indexed _ _ _ _ _ _ Hpc Hparse Hindex).
  by rewrite Hname, splitSymbol_func.
Qed.

(** X9. For a method symbol [dir/pkg.recv.name] whose file has been
    indexed, the lookup is decided by the types of the index alone: the
    method [name] of the type named by the receiver part without its
    markers, or one and the same NotFound error whether the type or only
    the method is missing.  A function of the index named [name] is never
    returned. *)
Theorem method_symbol_lookup w l pc rfunc f p (dirs : list string) (pkg recv name : string) :
  FuncForPC w pc = Some rfunc →
  parseTree (ParseFile w (sourceFile rfunc)) = Some f →
  commentofFile w (Lookup.IncludeUnexported l) f = Ok p →
  RFunc.Name rfunc = joinPath dirs (methodSegment pkg recv name) →
  Forall noSlash dirs → noSlash pkg → noDot pkg → noSlash recv → noDot recv → noSlash name →
  (LookupFromFuncForPC w l pc).2
  = match collect.Package.Types p !! strings.Trim recv receiverMarkers
          ≫= fun ob => collect.Object.Methods ob !! name with
    | Some r => Ok {| Func.pc := pc; Func.Raw := r;
                      Func.Recv := strings.Trim recv receiverMarkers |}
    | None => Err (methodNotFound (RFunc.Name rfunc))
    end.
Proof.
  intros Hpc Hparse Hindex Hname Hd Hp Hp' Hr Hr' Hn.
  rewrite (LookupFromFuncForPC_indexed _ _ _ _ _ _ Hpc Hparse Hindex).
  rewrite Hname, splitSymbol_method by done. unfold selectFunc.
  destruct (collect.Package.Types p !! _) as [ob |]; simpl; [| done].
  by destruct (collect.Object.Methods ob !! name).
Qed.

End SymbolLookup.

Lemma function_symbol_lookup_witness :
  (LookupFromFuncForPC sampleWorld sampleLookup pcAdd).2
  = match collect.Package.Functions sampleIndex !! "Add" with
    | Some r => Ok {| Func.pc := pcAdd; Func.Raw := r; Func.Recv := "" |}
    | None => Err (functionNotFound symAdd)
    end.
Proof.
  refine (function_symbol_lookup sampleWorld sampleLookup pcAdd
            (sampleRFunc symAdd pcAdd sampleSource) "sample.go" sampleIndex
            sampleDirs "metadata" "Add" _ _ _ _ _ _ _ _ _); try reflexivity.
  repeat constructor.
Defined.

Lemma method_symbol_lookup_witness :
  (LookupFromFuncForPC sampleWorld sampleLookup pcDescribePtr).2
  = match collect.Package.Types sampleIndex !! strings.Trim (pointerRecv "S") receiverMarkers
          ≫= fun ob => collect.Object.Methods ob !! "Describe" with
    | Some r => Ok {| Func.pc := pcDescribePtr; Func.Raw := r;
                      Func.Recv := strings.Trim (pointerRecv "S") receiverMarkers |}
    | None => Err (methodNotFound symDescribePtr)
    end.
Proof.
  refine (method_symbol_lookup sampleWorld sampleLookup pcDescribePtr
            (sampleRFunc symDescribePtr pcDescribePtr sampleSource) "sample.go" sampleIndex
            sampleDirs "metadata" (pointerRecv "S") "Describe" _ _ _ _ _ _ _ _ _ _);
    try reflexivity.
  repeat constructor.
Defined.

(** ** Demangling, continued *)

Lemma finalSegment_joinPath (dirs : list string) (seg : string) :
  Forall noSlash dirs → noSlash seg → finalSegment (joinPath dirs seg) = seg.
Proof. apply last_Split_joinPath. Qed.

Lemma noSlash_app_inv (a b : string) :
  noSlash (a +:+ b) → noSlash a ∧ noSlash b.
Proof. unfold noSlash. rewrite hasByte_app. apply orb_false_elim. Qed.

Lemma noSlash_cons_inv (c : ascii) (s : string) : noSlash (String c s) → noSlash s.
Proof. unfold noSlash. simpl. by intros [_ ?]%orb_false_elim. Qed.

(** X10. Demangling can be read backwards.  Whenever it answers with a
    method, the symbol is [dirs/pkg.recv.name] with a package part and a
    receiver part free of '.', and the answer's receiver is that receiver
    part without its markers; whenever it answers with a function, the
    symbol is [dirs/pkg.name] with a name free of '.', and the receiver is
    empty. *)
Theorem splitSymbol_inverse (fullname recv name : string) (isMethod : bool) :
  splitSymbol fullname = Ok (recv, name, isMethod) →
  ∃ dirs pkg,
    Forall noSlash dirs ∧ noSlash pkg ∧ noDot pkg ∧ noSlash name
    ∧ if isMethod
      then ∃ recv', noSlash recv' ∧ noDot recv'
                    ∧ recv = strings.Trim recv' receiverMarkers
                    ∧ fullname = joinPath dirs (methodSegment pkg recv' name)
      else recv = "" ∧ noDot name
           ∧ fullname = joinPath dirs (funcSegment pkg name).
Proof.
  destruct (joinPath_decompose fullname) as (dirs & seg & -> & Hdirs & Hseg).
  unfold splitSymbol. rewrite last_Split_joinPath by done.
  destruct (strings.Cut seg ".") as [[pkg rest] isFunc] eqn:Hcut.
  destruct isFunc; simpl; [| done].
  apply Cut_found_inv in Hcut as [-> Hpkg].
  apply noSlash_app_inv in Hseg as [Hpkg' Hrest%noSlash_cons_inv].
  destruct (strings.Cut rest ".") as [[r n] found] eqn:Hcut'.
  destruct found; intros [= <- <- <-]; exists dirs, pkg.
  - apply Cut_found_inv in Hcut' as [-> Hr].
    apply noSlash_app_inv in Hrest as [Hr' Hn%noSlash_cons_inv].
    repeat split; try done. by exists r.
  - pose proof (Cut_not_found_inv _ _ _ _ Hcut') as Hn.
    rewrite (Cut_not_found rest) in Hcut' by done. simplify_eq.
    by repeat split.
Qed.

Lemma splitSymbol_inverse_witness :
  ∃ dirs pkg,
    Forall noSlash dirs ∧ noSlash pkg ∧ noDot pkg ∧ noSlash "Describe"
    ∧ ∃ recv', noSlash recv' ∧ noDot recv'
               ∧ "S" = strings.Trim recv' receiverMarkers
               ∧ symDescribePtr = joinPath dirs (methodSegment pkg recv' "Describe").
Proof.
  apply (splitSymbol_inverse symDescribePtr "S" "Describe" true). reflexivity.
Defined.

(** X11. Demangling fails for exactly the symbols whose final path segment
    has no '.', and the error then quotes the whole symbol; a final segment
    with a '.' always demangles, even when the package part or the name is
    empty. *)
Theorem splitSymbol_fails_iff_no_dot (fullname : string) :
  (∀ e, splitSymbol fullname = Err e
        ↔ noDot (finalSegment fullname) ∧ e = errUnexpectedSymbolForm fullname)
  ∧ (strings.hasByte (finalSegment fullname) "." = true
     ↔ ∃ recv name isMethod, splitSymbol fullname = Ok (recv, name, isMethod)).
Proof.
  unfold splitSymbol, finalSegment, noDot.
  destruct (strings.Cut _ ".") as [[pkg rest] isFunc] eqn:Hcut.
  destruct isFunc; simpl.
  - apply Cut_found_inv in Hcut as [Hseg Hpkg].
    assert (strings.hasByte (default "" (last (strings.Split fullname "/"))) "." = true)
      as Hdot.
    { rewrite Hseg, hasByte_app. simpl. by rewrite orb_true_r. }
    rewrite Hdot. split.
    + intros e. split; [| by intros [? _]].
      destruct (strings.Cut rest ".") as [[r n] found]. by destruct found.
    + split; [| done]. intros _.
      destruct (strings.Cut rest ".") as [[r n] found]. destruct found; eauto.
  - apply Cut_not_found_inv in Hcut. rewrite Hcut. split.
    + intros e. split; [by intros [= <-] | by intros [_ ->]].
    + split; [done |]. by intros (? & ? & ? & ?).
Qed.

Example splitSymbol_trailing_dot :
  splitSymbol "example.com/pkg." = Ok ("", "", false).
Proof. reflexivity. Qed.

(** ** Calls the function lookup makes *)

(** X12. The function lookup asks the runtime first, then the parser, then
    the indexer, and stops at the first that fails: its trace is a prefix of
    these three calls.  The indexer is given the lookup's own
    [IncludeUnexported], and the lookup never reads build information, never
    loads a package and never logs. *)
Theorem function_lookup_calls {AstFile : Type} (w : World AstFile) (l : Lookup.t) (pc : Z) :
  ((LookupFromFuncForPC w l pc).1 = [EvFuncForPC pc]
   ∨ (∃ filename, (LookupFromFuncForPC w l pc).1 = [EvFuncForPC pc; EvParseFile filename])
   ∨ (∃ filename f,
        (LookupFromFuncForPC w l pc).1
        = [EvFuncForPC pc; EvParseFile filename;
           EvCommentofFile (Lookup.IncludeUnexported l) f]))
  ∧ existsb isPackageEvent (LookupFromFuncForPC w l pc).1 = false.
Proof.
  destruct (LookupFromFuncForPC_stages w l pc)
    as [[_ H] | [(rfunc & err & _ & _ & H) | (rfunc & f & _ & _ & H)]]; rewrite H;
    (split; [eauto | done]).
Qed.

(** ** The struct lookup, continued *)

Section StructLookupMore.

Context {AstFile : Type}.
Implicit Types (w : World AstFile) (l : Lookup.t) (rt : ReflectType.t)
  (pkg : Package AstFile) (pkgs : list (Package AstFile)).

(** One turn of the loop on a candidate. *)
Lemma scanPackages_candidate w l rt pkgpath pkg pkgs :
  candidate pkgpath pkg →
  (scanPackages w l rt pkgpath (pkg :: pkgs)).2
  = match packageIndex w l pkg with
    | Err err => Err (collectError pkg rt err)
    | Ok p =>
        match collect.Package.Types p !! ReflectType.Name rt with
        | Some result => Ok {| Struct.Raw := result |}
        | None => (scanPackages w l rt pkgpath pkgs).2
        end
    end.
Proof.
  intros [Herr Hpath]. unfold packageIndex. simpl. rewrite Herr. simpl.
  unfold strings.eqb. rewrite (proj2 (String.eqb_eq _ _) Hpath). simpl.
  destruct (commentofPackage w _ _) as [p | err]; simpl; [| done].
  destruct (collect.Package.Types p !! ReflectType.Name rt); simpl; [done |].
  by destruct (scanPackages w l rt pkgpath pkgs).
Qed.

(** Packages that are passed over or lack the type leave the result to the
    packages after them. *)
Lemma scanPackages_app_pass w l rt pkgpath pre pkgs :
  (∀ q, q ∈ pre → candidate pkgpath q →
     ∃ p, packageIndex w l q = Ok p
          ∧ collect.Package.Types p !! ReflectType.Name rt = None) →
  (scanPackages w l rt pkgpath (pre ++ pkgs)).2 = (scanPackages w l rt pkgpath pkgs).2.
Proof.
  induction pre as [|q pre IH]; intros Hpre; [done |].
  rewrite <- app_comm_cons.
  assert ((scanPackages w l rt pkgpath (pre ++ pkgs)).2
          = (scanPackages w l rt pkgpath pkgs).2) as IH'.
  { apply IH. intros q' Hin. apply Hpre. by apply list_elem_of_further. }
  destruct (decide (candidate pkgpath q)) as [Hc | Hnc].
  - rewrite scanPackages_candidate by done.
    destruct (Hpre q (list_elem_of_here _ _) Hc) as (p & -> & ->). done.
  - by rewrite scanPackages_skip.
Qed.

(** X13. The first match wins: when the packages before [pkg] in load
    order are passed over or lack the type name, and [pkg] is a candidate
    whose index holds the type name, the lookup returns the record of [pkg],
    whatever the packages after it are. *)
Theorem first_match_wins w l rt t pkgpath pre pkg post p (r : collect.Object.t) :
  resolvePkgPath w rt = (t, Ok pkgpath) →
  packagesLoad w (loadConfig l) pkgpath = Ok (pre ++ pkg :: post) →
  (∀ q, q ∈ pre → candidate pkgpath q →
     ∃ p', packageIndex w l q = Ok p'
           ∧ collect.Package.Types p' !! ReflectType.Name rt = None) →
  candidate pkgpath pkg →
  packageIndex w l pkg = Ok p →
  collect.Package.Types p !! ReflectType.Name rt = Some r →
  (LookupFromStructForReflectType w l rt).2 = Ok {| Struct.Raw := r |}.
Proof.
  intros Hres Hload Hpre Hc Hindex Htype.
  rewrite (LookupFromStruct_resolved _ _ _ _ _ Hres), Hload. simpl.
  rewrite scanPackages_app_pass by done.
  by rewrite scanPackages_candidate, Hindex, Htype.
Qed.

(** X14. A failure of the indexer ends the scan: when the packages before
    [pkg] are passed over or lack the type name and the indexer fails on the
    candidate [pkg], the lookup returns that error wrapped, with the package
    path and the type name in the message, whatever the packages after [pkg]
    would have given. *)
Theorem indexer_failure_ends_scan w l rt t pkgpath pre pkg post (err : error) :
  resolvePkgPath w rt = (t, Ok pkgpath) →
  packagesLoad w (loadConfig l) pkgpath = Ok (pre ++ pkg :: post) →
  (∀ q, q ∈ pre → candidate pkgpath q →
     ∃ p', packageIndex w l q = Ok p'
           ∧ collect.Package.Types p' !! ReflectType.Name rt = None) →
  candidate pkgpath pkg →
  packageIndex w l pkg = Err err →
  (LookupFromStructForReflectType w l rt).2 = Err (collectError pkg rt err)
  ∧ Unwrap (collectError pkg rt err) = Some err
  ∧ errors.IsNotFound (collectError pkg rt err) = errors.IsNotFound err.
Proof.
  intros Hres Hload Hpre Hc Hindex.
  rewrite (LookupFromStruct_resolved _ _ _ _ _ Hres), Hload. simpl.
  rewrite scanPackages_app_pass by done.
  by rewrite scanPackages_candidate, Hindex.
Qed.

Lemma scanPackages_Err w l rt pkgpath pkgs (e : error) :
  (scanPackages w l rt pkgpath pkgs).2 = Err e →
  e = structNotFound rt
  ∨ ∃ pkg err, pkg ∈ pkgs ∧ candidate pkgpath pkg
               ∧ packageIndex w l pkg = Err err ∧ e = collectError pkg rt err.
Proof.
  induction pkgs as [|pkg pkgs IH].
  - simpl. intros [= <-]. by left.
  - assert ((scanPackages w l rt pkgpath pkgs).2 = Err e →
            e = structNotFound rt
            ∨ ∃ pkg' err, pkg' ∈ pkg :: pkgs ∧ candidate pkgpath pkg'
                          ∧ packageIndex w l pkg' = Err err
                          ∧ e = collectError pkg' rt err) as IH'.
    { intros [-> | (pkg' & err & Hin & H)]%IH; [by left | right].
      exists pkg', err. split; [by apply list_elem_of_further | done]. }
    destruct (decide (candidate pkgpath pkg)) as [Hc | Hnc].
    + rewrite scanPackages_candidate by done.
      destruct (packageIndex w l pkg) as [p | err] eqn:Hindex.
      * destruct (collect.Package.Types p !! ReflectType.Name rt); [done | exact IH'].
      * intros [= <-]. right. exists pkg, err.
        split; [apply list_elem_of_here | done].
    + by rewrite scanPackages_skip.
Qed.

(** X15. The failures of the struct lookup: [ErrNotFound] itself for the
    sentinel path without build information; the loader's error wrapped;
    the error that wraps [ErrNotFound] when the scan found no record; or the
    indexer's error on a candidate, wrapped. *)
Theorem struct_lookup_failures w l rt (e : error) :
  (LookupFromStructForReflectType w l rt).2 = Err e →
  (ReflectType.PkgPath rt = "main" ∧ ReadBuildInfo w = None ∧ e = ErrNotFound)
  ∨ ∃ t pkgpath,
      resolvePkgPath w rt = (t, Ok pkgpath)
      ∧ ((∃ err, packagesLoad w (loadConfig l) pkgpath = Err err ∧ e = loadError err)
         ∨ ∃ pkgs, packagesLoad w (loadConfig l) pkgpath = Ok pkgs
             ∧ (e = structNotFound rt
                ∨ ∃ pkg err, pkg ∈ pkgs ∧ candidate pkgpath pkg
                             ∧ packageIndex w l pkg = Err err
                             ∧ e = collectError pkg rt err)).
Proof.
  intros He.
  destruct (resolvePkgPath w rt) as [t [pkgpath | e']] eqn:Hres.
  - right. exists t, pkgpath. split; [done |].
    rewrite (LookupFromStruct_resolved _ _ _ _ _ Hres) in He.
    destruct (packagesLoad w (loadConfig l) pkgpath) as [pkgs | err] eqn:Hload.
    + right. exists pkgs. split; [done |]. by apply scanPackages_Err.
    + left. exists err. split; [done |]. simpl in He. by simplify_eq.
  - left. rewrite (LookupFromStruct_unresolved _ _ _ _ _ Hres) in He. simpl in He.
    destruct (decide (ReflectType.PkgPath rt = "main")) as [Hmain | Hne].
    + rewrite resolvePkgPath_main in Hres by done.
      destruct (ReadBuildInfo w); by simplify_eq.
    + by rewrite resolvePkgPath_declared in Hres.
Qed.

End StructLookupMore.

Lemma passedOverPackages_no_candidate (q : Package string) :
  q ∈ passedOverPackages → ¬ candidate samplePath q.
Proof.
  intros Hin [Herr Hpath]. unfold passedOverPackages in Hin. simpl in Hin.
  apply elem_of_cons in Hin as [-> | Hin]; [discriminate Herr |].
  apply elem_of_cons in Hin as [-> | Hin]; [vm_compute in Hpath; discriminate Hpath |].
  by apply elem_of_nil in Hin.
Qed.

Lemma first_match_wins_witness :
  (LookupFromStructForReflectType sampleWorld sampleLookup userType).2
  = Ok {| Struct.Raw := userRecord |}.
Proof.
  refine (first_match_wins sampleWorld sampleLookup userType [] samplePath
            passedOverPackages metadataPackage [] sampleIndex userRecord _ _ _ _ _ _).
  - reflexivity.
  - reflexivity.
  - intros q Hin Hc. by destruct (passedOverPackages_no_candidate q Hin).
  - split; reflexivity.
  - reflexivity.
  - vm_compute. reflexivity.
Defined.

Lemma indexer_failure_ends_scan_witness :
  (LookupFromStructForReflectType failingIndexWorld sampleLookup userType).2
  = Err (collectError metadataPackage userType
           (foreignError "collect package: unsupported declaration")).
Proof.
  refine (proj1 (indexer_failure_ends_scan failingIndexWorld sampleLookup userType []
                   samplePath passedOverPackages metadataPackage []
                   (foreignError "collect package: unsupported declaration") _ _ _ _ _)).
  - reflexivity.
  - reflexivity.
  - intros q Hin Hc. by destruct (passedOverPackages_no_candidate q Hin).
  - split; reflexivity.
  - reflexivity.
Defined.

Lemma struct_lookup_failures_witness :
  (ReflectType.PkgPath missingType = "main" ∧ ReadBuildInfo sampleWorld = None
   ∧ structNotFound missingType = ErrNotFound)
  ∨ ∃ t pkgpath,
      resolvePkgPath sampleWorld missingType = (t, Ok pkgpath)
      ∧ ((∃ err, packagesLoad sampleWorld (loadConfig sampleLookup) pkgpath = Err err
                 ∧ structNotFound missingType = loadError err)
         ∨ ∃ pkgs, packagesLoad sampleWorld (loadConfig sampleLookup) pkgpath = Ok pkgs
             ∧ (structNotFound missingType = structNotFound missingType
                ∨ ∃ pkg err, pkg ∈ pkgs ∧ candidate pkgpath pkg
                             ∧ packageIndex sampleWorld sampleLookup pkg = Err err
                             ∧ structNotFound missingType = collectError pkg missingType err)).
Proof.
  apply (struct_lookup_failures sampleWorld sampleLookup missingType
           (structNotFound missingType)).
  vm_compute. reflexivity.
Defined.

Section StructLookupWorlds.

Context {AstFile : Type}.
Implicit Types (w : World AstFile) (l : Lookup.t) (rt : ReflectType.t)
  (pkg : Package AstFile) (pkgs : list (Package AstFile)).

Lemma scanPackages_withPkgPath w l rt p pkgpath pkgs :
  scanPackages w l (withPkgPath rt p) pkgpath pkgs = scanPackages w l rt pkgpath pkgs.
Proof.
  induction pkgs as [|pkg pkgs IH]; [done |]. simpl. by rewrite IH.
Qed.

(** X16. A type of the entry package is looked up as if reflection had
    reported the path of the build information: with build information at
    hand, the lookup of a type whose reflected path is the sentinel gives
    the result of the lookup of the same type under that path. *)
Theorem sentinel_lookup_as_build_path w l rt (binfo : BuildInfo.t) :
  ReflectType.PkgPath rt = "main" →
  ReadBuildInfo w = Some binfo →
  (LookupFromStructForReflectType w l rt).2
  = (LookupFromStructForReflectType w l (withPkgPath rt (BuildInfo.Path binfo))).2.
Proof.
  intros Hmain Hinfo.
  pose proof (resolvePkgPath_main w rt Hmain) as Hres. rewrite Hinfo in Hres.
  rewrite (LookupFromStruct_resolved _ _ _ _ _ Hres).
  assert (∃ t', resolvePkgPath w (withPkgPath rt (BuildInfo.Path binfo))
                = (t', Ok (BuildInfo.Path binfo))) as [t' Hres'].
  { destruct (decide (BuildInfo.Path binfo = "main")) as [Heq | Hne].
    - rewrite resolvePkgPath_main by done. rewrite Hinfo. eauto.
    - rewrite resolvePkgPath_declared by done. eauto. }
  rewrite (LookupFromStruct_resolved _ _ _ _ _ Hres').
  destruct (packagesLoad w (loadConfig l) (BuildInfo.Path binfo)) as [pkgs | err];
    [| done].
  simpl. by rewrite scanPackages_withPkgPath.
Qed.

Lemma scanPackages_filter w l rt pkgpath pkgs :
  (scanPackages w l rt pkgpath pkgs).2
  = (scanPackages w l rt pkgpath (filter (candidate pkgpath) pkgs)).2.
Proof.
  induction pkgs as [|pkg pkgs IH]; [done |].
  rewrite filter_cons. destruct (decide (candidate pkgpath pkg)) as [Hc | Hnc].
  - rewrite !scanPackages_candidate by done. by rewrite IH.
  - by rewrite scanPackages_skip.
Qed.

Lemma scanPackages_withPackagesLoad w load l rt pkgpath pkgs :
  scanPackages (withPackagesLoad w load) l rt pkgpath pkgs
  = scanPackages w l rt pkgpath pkgs.
Proof.
  induction pkgs as [|pkg pkgs IH]; [done |]. simpl. by rewrite IH.
Qed.

(** X17. Packages that failed to load or have another path never change
    the result: the lookup gives the same result when the loader hands back
    only the candidates. *)
Theorem non_candidates_do_not_matter w l rt :
  (LookupFromStructForReflectType w l rt).2
  = (LookupFromStructForReflectType (withPackagesLoad w (loadCandidates w)) l rt).2.
Proof.
  destruct (resolvePkgPath w rt) as [t [pkgpath | e]] eqn:Hres.
  - assert (resolvePkgPath (withPackagesLoad w (loadCandidates w)) rt = (t, Ok pkgpath))
      as Hres' by exact Hres.
    rewrite (LookupFromStruct_resolved _ _ _ _ _ Hres).
    rewrite (LookupFromStruct_resolved _ _ _ _ _ Hres').
    simpl. unfold loadCandidates.
    destruct (packagesLoad w (loadConfig l) pkgpath) as [pkgs | err]; [| done].
    simpl. by rewrite scanPackages_withPackagesLoad, <- scanPackages_filter.
  - assert (resolvePkgPath (withPackagesLoad w (loadCandidates w)) rt = (t, Err e))
      as Hres' by exact Hres.
    rewrite (LookupFromStruct_unresolved _ _ _ _ _ Hres).
    by rewrite (LookupFromStruct_unresolved _ _ _ _ _ Hres').
Qed.

Lemma collectError_ne_structNotFound pkg rt (err : error) :
  collectError pkg rt err ≠ structNotFound rt.
Proof. unfold collectError, structNotFound. intros [= H _]. Qed.

Lemma logMessages_app (t1 t2 : list (Event AstFile)) :
  logMessages (t1 ++ t2) = logMessages t1 ++ logMessages t2.
Proof. apply omap_app. Qed.

Lemma logMessages_logPackageErrors pkg :
  logMessages (logPackageErrors pkg).1 = packageErrorMessages pkg.
Proof.
  unfold logPackageErrors, packageErrorMessages. simpl.
  induction (pkgErrors pkg) as [|e es IH]; [done |]. simpl. by f_equal.
Qed.

Lemma scanPackages_logs w l rt pkgpath pkgs :
  (scanPackages w l rt pkgpath pkgs).2 = Err (structNotFound rt) →
  logMessages (scanPackages w l rt pkgpath pkgs).1
  = concat (packageErrorMessages <$> pkgs).
Proof.
  induction pkgs as [|pkg pkgs IH]; [done |]. simpl.
  destruct (scanPackages w l rt pkgpath pkgs) as [t r] eqn:Hscan. simpl in IH.
  destruct (pkgErrors pkg) as [|e es] eqn:Herr; simpl.
  - assert (packageErrorMessages pkg = []) as ->
        by (unfold packageErrorMessages; by rewrite Herr).
    simpl.
    destruct (negb (strings.eqb (pkgPkgPath pkg) pkgpath)); simpl; [exact IH |].
    destruct (commentofPackage w _ _) as [p | err]; simpl.
    + destruct (collect.Package.Types p !! ReflectType.Name rt); simpl; [done |].
      exact IH.
    + by intros [= H].
  - intros Hr. rewrite logMessages_app, (IH Hr). f_equal.
    rewrite <- logMessages_logPackageErrors. unfold logPackageErrors.
    by rewrite Herr.
Qed.

(** X18. When the loader has returned its packages and the lookup ends with
    the NotFound error of the scan, the log holds one line for each load
    error of each package, in load order, and no other line. *)
Theorem load_errors_are_logged w l rt t pkgpath pkgs :
  resolvePkgPath w rt = (t, Ok pkgpath) →
  packagesLoad w (loadConfig l) pkgpath = Ok pkgs →
  (LookupFromStructForReflectType w l rt).2 = Err (structNotFound rt) →
  logMessages (LookupFromStructForReflectType w l rt).1
  = concat (packageErrorMessages <$> pkgs).
Proof.
  intros Hres Hload. rewrite (LookupFromStruct_resolved _ _ _ _ _ Hres), Hload. simpl.
  intros Hr. rewrite logMessages_app. simpl.
  change (logMessages t ++ logMessages (scanPackages w l rt pkgpath pkgs).1
          = concat (packageErrorMessages <$> pkgs)).
  rewrite (scanPackages_logs _ _ _ _ _ Hr).
  assert (logMessages t = []) as ->; [| done].
  destruct (decide (ReflectType.PkgPath rt = "main")) as [Hmain | Hne].
  - rewrite resolvePkgPath_main in Hres by done.
    destruct (ReadBuildInfo w); by simplify_eq.
  - rewrite resolvePkgPath_declared in Hres by done. by simplify_eq.
Qed.

Lemma packageTree_foldl w (files : list AstFile) (k : string) :
  foldl (fun files f => <[fileName w f := f]> files) (∅ : gmap string AstFile) files !! k
  = last (filter (fun f => fileName w f = k) files).
Proof.
  induction files as [|f files IH] using rev_ind; [done |].
  rewrite foldl_snoc, filter_app, last_app, filter_cons, filter_nil.
  destruct (decide (fileName w f = k)) as [<- | Hne]; simpl.
  - by rewrite lookup_insert_eq.
  - by rewrite lookup_insert_ne.
Qed.

(** X19. The tree handed to the indexer has the name of the loaded package
    and holds its syntax trees under their file names: the entry of a file
    name is the last tree of the package with that name, and a name that no
    tree of the package bears has no entry. *)
Theorem packageTree_files w pkg :
  astName (packageTree w pkg) = pkgName pkg
  ∧ (∀ k, astFiles (packageTree w pkg) !! k
          = last (filter (fun f => fileName w f = k) (pkgSyntax pkg)))
  ∧ (∀ f, f ∈ pkgSyntax pkg → is_Some (astFiles (packageTree w pkg) !! fileName w f)).
Proof.
  split; [done |]. split.
  - intros k. apply packageTree_foldl.
  - intros f Hin. unfold packageTree. simpl. rewrite packageTree_foldl.
    apply last_is_Some. intros Hnil.
    assert (f ∈ filter (fun g => fileName w g = fileName w f) (pkgSyntax pkg)) as Hf
      by (by apply list_elem_of_filter).
    rewrite Hnil in Hf. by apply elem_of_nil in Hf.
Qed.

Lemma scanPackages_flags w l rt pkgpath pkgs :
  Forall (carriesFlagsOf l) (scanPackages w l rt pkgpath pkgs).1.
Proof.
  induction pkgs as [|pkg pkgs IH]; [by constructor |]. simpl.
  destruct (scanPackages w l rt pkgpath pkgs) as [t r]. simpl in IH.
  destruct (0 <? length (pkgErrors pkg))%nat; simpl.
  - apply Forall_app. split; [| done].
    induction (pkgErrors pkg); by constructor.
  - destruct (negb (strings.eqb (pkgPkgPath pkg) pkgpath)); [done |]. simpl.
    destruct (commentofPackage w _ _) as [p |]; simpl; [| by repeat constructor].
    destruct (collect.Package.Types p !! ReflectType.Name rt); simpl;
      by repeat constructor.
Qed.

(** X20. Every call a lookup makes with a flag carries the flags of the
    lookup: the indexers are given [IncludeUnexported], and the loader is
    configured with [Tests] set to [IncludeGoTestFiles] and the three modes
    name, files and syntax. *)
Theorem lookups_pass_their_flags w l rt (pc : Z) :
  Forall (carriesFlagsOf l) (LookupFromFuncForPC w l pc).1
  ∧ Forall (carriesFlagsOf l) (LookupFromStructForReflectType w l rt).1.
Proof.
  split.
  - destruct (LookupFromFuncForPC_stages w l pc)
      as [[_ H] | [(rfunc & err & _ & _ & H) | (rfunc & f & _ & _ & H)]]; rewrite H;
      by repeat constructor.
  - destruct (resolvePkgPath w rt) as [t [pkgpath | e]] eqn:Hres.
    + assert (Forall (carriesFlagsOf l) t) as Ht.
      { destruct (decide (ReflectType.PkgPath rt = "main")) as [Hmain | Hne].
        - rewrite resolvePkgPath_main in Hres by done.
          destruct (ReadBuildInfo w); simplify_eq; by repeat constructor.
        - rewrite resolvePkgPath_declared in Hres by done. simplify_eq. constructor. }
      rewrite (LookupFromStruct_resolved _ _ _ _ _ Hres).
      destruct (packagesLoad w (loadConfig l) pkgpath) as [pkgs | err]; simpl.
      * apply Forall_app. split; [done |]. constructor; [done |].
        apply scanPackages_flags.
      * apply Forall_app. split; [done |]. by repeat constructor.
    + rewrite (LookupFromStruct_unresolved _ _ _ _ _ Hres). simpl.
      destruct (decide (ReflectType.PkgPath rt = "main")) as [Hmain | Hne].
      * rewrite resolvePkgPath_main in Hres by done.
        destruct (ReadBuildInfo w); simplify_eq; by repeat constructor.
      * by rewrite resolvePkgPath_declared in Hres.
Qed.

End StructLookupWorlds.

Lemma sentinel_lookup_as_build_path_witness :
  (LookupFromStructForReflectType sampleWorld sampleLookup mainUserType).2
  = (LookupFromStructForReflectType sampleWorld sampleLookup
       (withPkgPath mainUserType samplePath)).2.
Proof.
  exact (sentinel_lookup_as_build_path sampleWorld sampleLookup mainUserType
           {| BuildInfo.Path := samplePath |} eq_refl eq_refl).
Defined.

Lemma load_errors_are_logged_witness :
  logMessages (LookupFromStructForReflectType sampleWorld sampleLookup missingType).1
  = concat (packageErrorMessages <$> samplePackages).
Proof.
  refine (load_errors_are_logged sampleWorld sampleLookup missingType [] samplePath
            samplePackages _ _ _).
  - reflexivity.
  - reflexivity.
  - vm_compute. reflexivity.
Defined.

Lemma packageTree_files_witness :
  is_Some (astFiles (packageTree sampleWorld metadataPackage)
           !! fileName sampleWorld "sample.go").
Proof.
  refine (proj2 (proj2 (packageTree_files sampleWorld metadataPackage)) "sample.go" _).
  apply list_elem_of_here.
Defined.

(** ** [Config.Extract], continued *)

Section ExtractMore.

Context {ID : Type} `{Countable ID} {Shape ShapePackage : Type}.
Implicit Types (c : @Config ID _ _ Shape ShapePackage) (l : Lookup.t) (d : Z).

Lemma Config_setup_fields d c :
  cfgSkipComments (Config_setup d c) = cfgSkipComments c
  ∧ cfgFillArgNames (Config_setup d c) = cfgFillArgNames c
  ∧ cfgFillReturnNames (Config_setup d c) = cfgFillReturnNames c
  ∧ cfgIncludeGoTestFiles (Config_setup d c) = cfgIncludeGoTestFiles c
  ∧ cfgDocTruncationSize (Config_setup d c)
    = (if cfgDocTruncationSize c =? 0 then d else cfgDocTruncationSize c)
  ∧ cfgLookup (Config_setup d c)
    = match cfgLookup c with
      | Some l => Some l
      | None => if cfgSkipComments c then None else Some (extractLookup c)
      end
  ∧ cfgExtractor (Config_setup d c)
    = match cfgExtractor c with
      | Some e => Some e
      | None => Some {| exLookup := cfgLookup (Config_setup d c);
                        exSeen := ∅; exPackages := ∅ |}
      end.
Proof.
  destruct c as [skip fillArgs fillReturns tests size extractor lookup].
  unfold Config_setup. simpl.
  destruct (size =? 0); destruct lookup, skip, extractor; by repeat split.
Qed.

(** X21. The set-up of [Extract] is idempotent: run on a configuration it
    has already set up, with the package variable unchanged, it changes
    nothing, so the lookup and the extractor are made once and then
    reused.  This holds for every value of the package variable. *)
Theorem Config_setup_idempotent d c :
  Config_setup d (Config_setup d c) = Config_setup d c.
Proof.
  destruct c as [skip fillArgs fillReturns tests size extractor lookup].
  unfold Config_setup. simpl.
  destruct (size =? 0) eqn:Hsize; destruct lookup, skip, extractor; simpl;
    rewrite ?Hsize; try done;
    destruct (d =? 0) eqn:Hd; simpl; try done;
    by apply Z.eqb_eq in Hd as ->.
Qed.

(** X22. The set-up of [Extract] leaves the four exported flags as the
    caller set them.  A truncation size of zero is replaced by the value
    [d] the package variable [DocTruncationSize] holds at the call, 10
    unless a caller has reassigned it; any other size is kept, a negative
    one too.  Afterwards the size is zero only if both the size of the
    configuration and the package variable were zero. *)
Theorem Config_setup_options d c :
  cfgSkipComments (Config_setup d c) = cfgSkipComments c
  ∧ cfgFillArgNames (Config_setup d c) = cfgFillArgNames c
  ∧ cfgFillReturnNames (Config_setup d c) = cfgFillReturnNames c
  ∧ cfgIncludeGoTestFiles (Config_setup d c) = cfgIncludeGoTestFiles c
  ∧ (cfgDocTruncationSize c = 0 → cfgDocTruncationSize (Config_setup d c) = d)
  ∧ (cfgDocTruncationSize c ≠ 0 →
     cfgDocTruncationSize (Config_setup d c) = cfgDocTruncationSize c)
  ∧ (cfgDocTruncationSize (Config_setup d c) = 0 ↔ cfgDocTruncationSize c = 0 ∧ d = 0).
Proof.
  destruct (Config_setup_fields d c) as (-> & -> & -> & -> & -> & _).
  repeat split; try done.
  - by intros ->.
  - intros Hne. by rewrite (proj2 (Z.eqb_neq _ _) Hne).
  - by destruct (Z.eqb_spec (cfgDocTruncationSize c) 0).
  - by destruct (Z.eqb_spec (cfgDocTruncationSize c) 0).
  - intros [-> ->]. done.
Qed.

(** X23. [IncludeGoTestFiles] is read when the lookup is made and never
    again: after a first set-up that made the lookup, a store to the flag
    followed by another set-up leaves the lookup as it was, with the flag of
    the first call. *)
Theorem IncludeGoTestFiles_read_once d d' c (b : bool) :
  cfgLookup c = None →
  cfgSkipComments c = false →
  cfgLookup (Config_setup d' (setIncludeGoTestFiles (Config_setup d c) b))
  = cfgLookup (Config_setup d c)
  ∧ Lookup.IncludeGoTestFiles <$>
      cfgLookup (Config_setup d' (setIncludeGoTestFiles (Config_setup d c) b))
    = Some (cfgIncludeGoTestFiles c).
Proof.
  intros Hl Hs.
  destruct (Config_setup_fields d c) as (_ & _ & _ & _ & _ & Hlookup & _).
  rewrite Hl, Hs in Hlookup.
  destruct (Config_setup_fields d' (setIncludeGoTestFiles (Config_setup d c) b))
    as (_ & _ & _ & _ & _ & -> & _).
  simpl. by rewrite Hlookup.
Qed.

(** X24. With [SkipComments] set, the first set-up makes no lookup and an
    extractor without lookup.  Clearing [SkipComments] afterwards makes the
    next set-up create a lookup in the configuration, yet the extractor,
    already made, stays without one. *)
Theorem extractor_keeps_missing_lookup d d' c :
  cfgLookup c = None →
  cfgExtractor c = None →
  cfgSkipComments c = true →
  (cfgLookup (Config_setup d c) = None
   ∧ exLookup <$> cfgExtractor (Config_setup d c) = Some None)
  ∧ (is_Some (cfgLookup (Config_setup d' (setSkipComments (Config_setup d c) false)))
     ∧ exLookup <$>
         cfgExtractor (Config_setup d' (setSkipComments (Config_setup d c) false))
       = Some None).
Proof.
  intros Hl He Hs.
  destruct (Config_setup_fields d c) as (_ & _ & _ & _ & _ & Hlookup & Hextractor).
  rewrite Hl, Hs in Hlookup. rewrite He, Hlookup in Hextractor.
  split; [by rewrite Hlookup, Hextractor |].
  destruct (Config_setup_fields d' (setSkipComments (Config_setup d c) false))
    as (_ & _ & _ & _ & _ & -> & ->).
  simpl. by rewrite Hlookup, Hextractor.
Qed.

End ExtractMore.

Lemma IncludeGoTestFiles_read_once_witness :
  Lookup.IncludeGoTestFiles <$>
    cfgLookup (Config_setup DocTruncationSize
                 (setIncludeGoTestFiles (Config_setup DocTruncationSize freshConfig) false))
  = Some true.
Proof.
  exact (proj2 (IncludeGoTestFiles_read_once DocTruncationSize DocTruncationSize
                  freshConfig false eq_refl eq_refl)).
Defined.

Lemma extractor_keeps_missing_lookup_witness :
  is_Some (cfgLookup (Config_setup DocTruncationSize
                        (setSkipComments (Config_setup DocTruncationSize skippingConfig) false)))
  ∧ exLookup <$>
      cfgExtractor (Config_setup DocTruncationSize
                      (setSkipComments (Config_setup DocTruncationSize skippingConfig) false))
    = Some None.
Proof.
  exact (proj2 (extractor_keeps_missing_lookup DocTruncationSize DocTruncationSize
                  skippingConfig eq_refl eq_refl eq_refl)).
Defined.

(** A caller that has stored 0 in the package variable gets a size of 0
    back for a configuration whose size is 0; with the initial value the
    size becomes 10, and a size of 80 is kept. *)
Lemma Config_setup_options_witness :
  cfgDocTruncationSize (Config_setup 0 freshConfig) = 0
  ∧ cfgDocTruncationSize (Config_setup DocTruncationSize freshConfig) = 10
  ∧ cfgDocTruncationSize (Config_setup DocTruncationSize skippingConfig) = 80.
Proof.
  split; [| split].
  - destruct (Config_setup_options 0 freshConfig) as (_ & _ & _ & _ & Hzero & _).
    apply Hzero. reflexivity.
  - destruct (Config_setup_options DocTruncationSize freshConfig)
      as (_ & _ & _ & _ & Hzero & _).
    apply Hzero. reflexivity.
  - destruct (Config_setup_options DocTruncationSize skippingConfig)
      as (_ & _ & _ & _ & _ & -> & _); done.
Defined.

(** [IncludeGoTestFiles] plays no part in the function lookup: two lookups
    that differ only in that flag make the same calls and return the same
    result. *)
Lemma function_lookup_ignores_test_flag {AstFile : Type} (w : World AstFile)
    (l : Lookup.t) (b : bool) (pc : Z) :
  LookupFromFuncForPC w (withIncludeGoTestFiles l b) pc = LookupFromFuncForPC w l pc.
Proof. reflexivity. Qed.
